(** * TOML redactor: a shallow embedding of [tomlTools/toml_redactor.py]

    The development follows the Python source function by function:

    - the few [str] methods the class calls ([lstrip], [strip],
      [startswith], [endswith], [lower], [in]), and [float()];
    - a backtracking matcher for the fragment of [re] syntax the class
      uses, with greedy repetition, the anchors [^], [$] and [\b], and
      capture groups;
    - the class [TOMLRedactor]: its four pattern tables, [is_sensitive_key],
      [is_sensitive_value] and [redact_line]; then [redact_file], with
      what it reads, writes and prints made explicit, and [get_report].

    Text is modelled as [list ascii]; a character is the code point of the
    same number, so the model covers text in the range U+0000..U+00FF.
    The Python object [self] is a record that [redact_line] receives and
    returns; exceptions are the [Raise] outcome of a small result type. *)

From Stdlib Require Import List Bool Arith Lia ZArith Ascii String.
From Stdlib Require Import DecimalString.
From stdpp Require Import base gmap sorting.
Import ListNotations.

Local Open Scope bool_scope.
Local Open Scope list_scope.

(** ** Characters *)

Definition code (c : ascii) : nat := nat_of_ascii c.

Definition between (lo hi : nat) (c : ascii) : bool :=
  (lo <=? code c) && (code c <=? hi).

Definition chr_eqb (a b : ascii) : bool := Ascii.eqb a b.

Definition NL : ascii := ascii_of_nat 10.
Definition DQ : ascii := ascii_of_nat 34.
Definition SQ : ascii := ascii_of_nat 39.

(** A string literal of the source, as the list of its characters. *)
Definition lit (s : string) : list ascii := list_ascii_of_string s.

(** [str.isspace] on one character, which is also what [\s] matches in a
    [str] pattern: TAB..CR, FS..US, space, NEL and NBSP. *)
Definition is_space (c : ascii) : bool :=
  between 9 13 c || between 28 32 c || (code c =? 133) || (code c =? 160).

(** The C-locale [isspace] that [float()] uses once the text is ASCII. *)
Definition is_c_space (c : ascii) : bool :=
  between 9 13 c || (code c =? 32).

Definition is_digit (c : ascii) : bool := between 48 57 c.
Definition is_upper_az (c : ascii) : bool := between 65 90 c.
Definition is_lower_az (c : ascii) : bool := between 97 122 c.
Definition is_alnum_az (c : ascii) : bool :=
  is_upper_az c || is_lower_az c || is_digit c.

(** [str.lower] on one character: A-Z, and the upper-case letters of the
    Latin-1 block (U+00C0..U+00DE without the multiplication sign). *)
Definition to_lower (c : ascii) : ascii :=
  if is_upper_az c || between 192 214 c || between 216 222 c
  then ascii_of_nat (code c + 32) else c.

(** What [\w] matches in a [str] pattern: alphanumeric characters in the
    sense of [str.isalnum], and the underscore. *)
Definition is_word (c : ascii) : bool :=
  is_alnum_az c || chr_eqb c "_"
  || (code c =? 170) || (code c =? 181) || (code c =? 186)
  || between 178 179 c || (code c =? 185) || between 188 190 c
  || between 192 214 c || between 216 246 c || between 248 255 c.

(** ** The [str] methods used by the class *)

Module PyStr.

Fixpoint str_eqb (a b : list ascii) : bool :=
  match a, b with
  | [], [] => true
  | x :: a', y :: b' => chr_eqb x y && str_eqb a' b'
  | _, _ => false
  end.

Fixpoint drop_while (f : ascii -> bool) (s : list ascii) : list ascii :=
  match s with
  | [] => []
  | c :: s' => if f c then drop_while f s' else s
  end.

(** [s.lstrip()], [s.rstrip()], [s.strip()] *)
Definition lstrip (s : list ascii) : list ascii := drop_while is_space s.
Definition rstrip (s : list ascii) : list ascii :=
  rev (drop_while is_space (rev s)).
Definition strip (s : list ascii) : list ascii := rstrip (lstrip s).

(** [s.strip(chars)] *)
Definition mem_chr (chars : list ascii) (c : ascii) : bool :=
  existsb (chr_eqb c) chars.
Definition strip_chars (chars s : list ascii) : list ascii :=
  rev (drop_while (mem_chr chars) (rev (drop_while (mem_chr chars) s))).

(** [s.startswith(p)], [s.endswith(p)] *)
Fixpoint startswith (s p : list ascii) {struct p} : bool :=
  match p, s with
  | [], _ => true
  | x :: p', y :: s' => chr_eqb x y && startswith s' p'
  | _ :: _, [] => false
  end.
Definition endswith (s p : list ascii) : bool :=
  startswith (rev s) (rev p).

(** [s.lower()] *)
Definition lower (s : list ascii) : list ascii := map to_lower s.

(** [sub in s] *)
Fixpoint contains (sub s : list ascii) : bool :=
  startswith s sub ||
  match s with
  | [] => false
  | _ :: s' => contains sub s'
  end.

(** [s in (t1, ..., tn)] *)
Definition in_tuple (s : list ascii) (t : list (list ascii)) : bool :=
  existsb (str_eqb s) t.

End PyStr.

(** ** Exceptions *)

Inductive exn : Type := ValueError | TypeError | OverflowError.

Inductive outcome (A : Type) : Type :=
| Return (a : A)
| Raise (e : exn).
Arguments Return {A} a.
Arguments Raise {A} e.

(** ** [float(s)] on a [str]

    Only whether the conversion succeeds matters to the class: the number
    is thrown away.  The steps are those of CPython's [PyFloat_FromString]:
    non-ASCII text has its white space turned into spaces and stops at the
    first other non-ASCII character (which becomes a question mark);
    underscores are checked and removed; C white space is stripped from
    both ends; then the whole remainder has to be consumed by the number
    parser, or by the [inf] / [nan] parser when the first one consumed
    nothing. *)

Module PyFloat.

Definition is_ascii_str (s : list ascii) : bool :=
  forallb (fun c => code c <? 128) s.

Fixpoint transform_loop (s : list ascii) : list ascii :=
  match s with
  | [] => []
  | c :: s' =>
      if code c <? 127 then c :: transform_loop s'
      else if is_space c then " "%char :: transform_loop s'
      else ["?"%char]
  end.

Definition transform_decimal_and_space (s : list ascii) : list ascii :=
  if is_ascii_str s then s else transform_loop s.

(** The underscore pass: an underscore has a digit on each side; a NUL
    character ends the C loop early, which is an error. *)
Fixpoint underscore_loop (prev : ascii) (s : list ascii)
  : option (list ascii) :=
  match s with
  | [] => if chr_eqb prev "_" then None else Some []
  | c :: s' =>
      if code c =? 0 then None
      else if chr_eqb c "_" then
        if is_digit prev then underscore_loop c s' else None
      else if chr_eqb prev "_" && negb (is_digit c) then None
      else option_map (cons c) (underscore_loop c s')
  end.

Definition without_underscores (s : list ascii) : option (list ascii) :=
  if existsb (fun c => chr_eqb c "_") s
  then underscore_loop (ascii_of_nat 0) s
  else Some s.

Fixpoint span (f : ascii -> bool) (s : list ascii)
  : list ascii * list ascii :=
  match s with
  | [] => ([], [])
  | c :: s' =>
      if f c then let (a, b) := span f s' in (c :: a, b) else ([], s)
  end.

Definition skip_sign (s : list ascii) : list ascii :=
  match s with
  | c :: s' => if chr_eqb c "+" || chr_eqb c "-" then s' else s
  | [] => []
  end.

Definition is_nil (s : list ascii) : bool :=
  match s with [] => true | _ => false end.

(** The decimal parser: what is left of [s] after the longest prefix
    [sign? (digits (. digits?)? | . digits) ([eE] sign? digits)?];
    [s] itself when there is no digit. *)
Definition dg_strtod (s : list ascii) : list ascii :=
  let (d1, r1) := span is_digit (skip_sign s) in
  let (d2, r2) :=
    match r1 with
    | c :: r => if chr_eqb c "." then span is_digit r else ([], r1)
    | [] => ([], r1)
    end in
  if is_nil d1 && is_nil d2 then s
  else
    match r2 with
    | c :: r =>
        if chr_eqb c "e" || chr_eqb c "E" then
          let (d3, r3) := span is_digit (skip_sign r) in
          if is_nil d3 then r2 else r3
        else r2
    | [] => r2
    end.

(** [case_insensitive_match]: the ASCII lower-casing of a prefix of [s]
    is [p]; what follows the prefix is returned. *)
Definition ascii_tolower (c : ascii) : ascii :=
  if is_upper_az c then ascii_of_nat (code c + 32) else c.

Fixpoint ci_match (s p : list ascii) : option (list ascii) :=
  match p, s with
  | [], _ => Some s
  | x :: p', y :: s' =>
      if chr_eqb (ascii_tolower y) x then ci_match s' p' else None
  | _ :: _, [] => None
  end.

Definition parse_inf_or_nan (s : list ascii) : list ascii :=
  let s1 := skip_sign s in
  match ci_match s1 (lit "inf") with
  | Some r =>
      match ci_match r (lit "inity") with
      | Some r' => r'
      | None => r
      end
  | None =>
      match ci_match s1 (lit "nan") with
      | Some r => r
      | None => s
      end
  end.

Definition ascii_strtod (s : list ascii) : list ascii :=
  let r := dg_strtod s in
  if length r =? length s then parse_inf_or_nan s else r.

Definition float_from_string_inner (s : list ascii) : bool :=
  let s1 := PyStr.drop_while is_c_space s in
  if is_nil s1 then false
  else
    let s2 := rev (PyStr.drop_while is_c_space (rev s1)) in
    is_nil (ascii_strtod s2).

(** [float(s)]: [Return tt] stands for the float that is returned. *)
Definition float (s : list ascii) : outcome unit :=
  match without_underscores (transform_decimal_and_space s) with
  | Some s' =>
      if float_from_string_inner s' then Return tt else Raise ValueError
  | None => Raise ValueError
  end.

End PyFloat.

(** ** The [re] fragment used by the class

    Patterns are written as syntax trees; each table entry below quotes
    the pattern text of the source next to its tree.  The matcher is the
    usual backtracking one, in continuation-passing style: alternatives
    are tried in the order Python tries them (a greedy repetition first
    tries one more iteration), and the first complete match wins. *)

Module Re.

Inductive regex : Type :=
| Lit (c : ascii)                                (* one literal character *)
| Cls (f : ascii -> bool)                        (* a character set *)
| Any                                            (* the dot *)
| Cat (r1 r2 : regex)                            (* r1 r2 *)
| Rep (lo : nat) (hi : option nat) (r : regex)   (* greedy r{lo,hi} *)
| Bol                                            (* ^ *)
| Eol                                            (* $ *)
| WordB                                          (* \b *)
| Grp (i : nat) (r : regex).                     (* the i-th ( ... ) *)

Definition Star (r : regex) : regex := Rep 0 None r.
Definition Plus (r : regex) : regex := Rep 1 None r.

(** Concatenation of a sequence of items. *)
Fixpoint Seq (rs : list regex) : regex :=
  match rs with
  | [] => Rep 0 (Some 0) Any
  | [r] => r
  | r :: rs' => Cat r (Seq rs')
  end.

(** A literal word, character by character. *)
Definition Word (s : string) : regex := Seq (map Lit (lit s)).

(** The matcher's position: the character before it (none at the start
    of the text), the text from it on, and the groups closed so far. *)
Record mstate : Type := MState {
  m_prev : option ascii;
  m_rest : list ascii;
  m_groups : gmap nat (list ascii)
}.

(** The character before the position reached after reading [u]. *)
Fixpoint after (prev : option ascii) (u : list ascii) : option ascii :=
  match u with
  | [] => prev
  | c :: u' => after (Some c) u'
  end.

Definition step (c : ascii) (s : list ascii) (st : mstate) : mstate :=
  MState (Some c) s (m_groups st).

(** The text read between two positions of one scan. *)
Definition consumed (st st1 : mstate) : list ascii :=
  firstn (length (m_rest st) - length (m_rest st1)) (m_rest st).

Definition close_group (i : nat) (st st1 : mstate) : mstate :=
  MState (m_prev st1) (m_rest st1) (<[i := consumed st st1]> (m_groups st1)).

Definition is_word_opt (o : option ascii) : bool :=
  match o with Some c => is_word c | None => false end.

Definition at_most (hi : option nat) (n : nat) : bool :=
  match hi with Some h => n <=? h | None => true end.

Definition first_of {A : Type} (x y : option A) : option A :=
  match x with Some _ => x | None => y end.

(** The loop of a greedy repetition [r{lo,hi}] whose item is matched by
    [item]: after [n] iterations, first try one more (if [hi] allows it),
    then leave the loop (if [lo] allows it) and continue with [k].  An
    iteration has to read at least one character, as every repeated
    sub-pattern of the source does; the counter [fuel] starts at the
    length of the remaining text and so never cuts a repetition short. *)
Fixpoint rep_loop
  (item : mstate -> (mstate -> option mstate) -> option mstate)
  (lo : nat) (hi : option nat) (k : mstate -> option mstate)
  (fuel n : nat) (st : mstate) {struct fuel} : option mstate :=
  first_of
    match fuel with
    | O => None
    | S fuel' =>
        if at_most hi (S n) then
          item st (fun st1 =>
            if length (m_rest st1) <? length (m_rest st)
            then rep_loop item lo hi k fuel' (S n) st1 else None)
        else None
    end
    (if lo <=? n then k st else None).

(** [rmatch r st k]: match [r] at [st], then continue with [k]; [None] is
    a failure that makes the caller backtrack. *)
Fixpoint rmatch (r : regex) (st : mstate) (k : mstate -> option mstate)
  {struct r} : option mstate :=
  match r with
  | Lit c =>
      match m_rest st with
      | x :: s => if chr_eqb x c then k (step x s st) else None
      | [] => None
      end
  | Cls f =>
      match m_rest st with
      | x :: s => if f x then k (step x s st) else None
      | [] => None
      end
  | Any =>
      match m_rest st with
      | x :: s => if chr_eqb x NL then None else k (step x s st)
      | [] => None
      end
  | Cat r1 r2 => rmatch r1 st (fun st1 => rmatch r2 st1 k)
  | Rep lo hi r1 =>
      rep_loop (rmatch r1) lo hi k (length (m_rest st)) 0 st
  | Bol => match m_prev st with None => k st | Some _ => None end
  | Eol =>
      match m_rest st with
      | [] => k st
      | [c] => if chr_eqb c NL then k st else None
      | _ => None
      end
  | WordB =>
      if xorb (is_word_opt (m_prev st)) (is_word_opt (hd_error (m_rest st)))
      then k st else None
  | Grp i r1 => rmatch r1 st (fun st1 => k (close_group i st st1))
  end.

(** A match object: the position where the match ended, with its groups. *)
Definition match_at (r : regex) (prev : option ascii) (s : list ascii)
  : option mstate :=
  rmatch r (MState prev s ∅) Some.

(** [re.match(r, s)] *)
Definition re_match (r : regex) (s : list ascii) : option mstate :=
  match_at r None s.

(** [re.search(r, s)]: the first start position with a match. *)
Fixpoint search_from (r : regex) (prev : option ascii) (s : list ascii)
  : option mstate :=
  first_of (match_at r prev s)
    match s with
    | [] => None
    | c :: s' => search_from r (Some c) s'
    end.

Definition re_search (r : regex) (s : list ascii) : option mstate :=
  search_from r None s.

(** The truth value of a match object in an [if]. *)
Definition truthy (m : option mstate) : bool :=
  match m with Some _ => true | None => false end.

(** [m.group(i)] *)
Definition group (i : nat) (m : mstate) : list ascii :=
  default [] (m_groups m !! i).

(** [re.sub(r, repl, s)], for a pattern that cannot match the empty text:
    each match, found left to right, is replaced by [repl]; [skip] counts
    the characters of the current match that are still to be dropped. *)
Fixpoint sub_loop (r : regex) (repl : list ascii) (prev : option ascii)
  (s : list ascii) (skip : nat) : list ascii :=
  match s with
  | [] => []
  | c :: s' =>
      match skip with
      | S n => sub_loop r repl (Some c) s' n
      | O =>
          match match_at r prev s with
          | Some m =>
              match length s - length (m_rest m) with
              | O => c :: sub_loop r repl (Some c) s' 0
              | S n => repl ++ sub_loop r repl (Some c) s' n
              end
          | None => c :: sub_loop r repl (Some c) s' 0
          end
      end
  end.

Definition re_sub (r : regex) (repl s : list ascii) : list ascii :=
  sub_loop r repl None s 0.

End Re.

(** ** Sequencing of computations that may raise *)

Definition bind {A B : Type} (x : outcome A) (f : A -> outcome B)
  : outcome B :=
  match x with
  | Return a => f a
  | Raise e => Raise e
  end.

Notation "'let*' x ':=' c1 'in' c2" := (bind c1 (fun x => c2))
  (at level 10, x name, c1 at level 100, c2 at level 200).

(** [try: body  except ValueError: handler]: the handler runs for
    [ValueError] only, any other exception goes on to the caller. *)
Definition try_except_ValueError {A : Type} (body handler : outcome A)
  : outcome A :=
  match body with
  | Return a => Return a
  | Raise ValueError => handler
  | Raise e => Raise e
  end.

(** ** The class [TOMLRedactor] *)

Import Re.

(** Character sets of the patterns. *)
Definition set_alpha_us (c : ascii) : bool :=          (* [a-zA-Z_] *)
  is_lower_az c || is_upper_az c || chr_eqb c "_".
Definition set_key_char (c : ascii) : bool :=          (* [a-zA-Z0-9_.-] *)
  is_lower_az c || is_upper_az c || is_digit c
  || chr_eqb c "_" || chr_eqb c "." || chr_eqb c "-".
Definition set_not_dq (c : ascii) : bool :=            (* [^dq] *)
  negb (chr_eqb c DQ).
Definition set_quote (c : ascii) : bool :=             (* [dq sq] *)
  chr_eqb c DQ || chr_eqb c SQ.
Definition set_b64url (c : ascii) : bool :=            (* [A-Za-z0-9_-] *)
  is_upper_az c || is_lower_az c || is_digit c
  || chr_eqb c "_" || chr_eqb c "-".
Definition set_b64 (c : ascii) : bool :=               (* [A-Za-z0-9+/] *)
  is_upper_az c || is_lower_az c || is_digit c
  || chr_eqb c "+" || chr_eqb c "/".
Definition set_alnum (c : ascii) : bool :=             (* [A-Za-z0-9] *)
  is_upper_az c || is_lower_az c || is_digit c.

(** [SENSITIVE_PATTERNS]: a set of substrings; only membership of some
    element is ever asked, so the order of the list is immaterial. *)
Definition SENSITIVE_PATTERNS : list (list ascii) :=
  [ lit "password"; lit "passwd"; lit "pwd";
    lit "key"; lit "apikey"; lit "api_key"; lit "secret";
    lit "auth_token"; lit "access_token"; lit "refresh_token";
    lit "bearer_token";
    lit "credential"; lit "credentials";
    lit "key_password";
    lit "moesifkey"; lit "embedding_endpoint_key" ].

(** [TOKEN_PATTERNS] *)
Definition TOKEN_PATTERNS : list regex :=
  [ Seq [WordB; Word "token"; WordB];        (* \btoken\b *)
    Seq [Word "_token"; Eol];                (* _token$ *)
    Seq [Bol; Word "token_"] ].              (* ^token_ *)

(** [CONFIG_EXCLUDE_PATTERNS] *)
Definition starts (s : string) : regex := Seq [Bol; Word s].
Definition ends (s : string) : regex := Seq [Word s; Eol].

Definition CONFIG_EXCLUDE_PATTERNS : list regex :=
  [ starts "allow_";             (* ^allow_ *)
    starts "enable_";            (* ^enable_ *)
    starts "disable_";           (* ^disable_ *)
    starts "show_";              (* ^show_ *)
    starts "display_";           (* ^display_ *)
    starts "retain_";            (* ^retain_ *)
    ends "_time";                (* _time$ *)
    ends "_period";              (* _period$ *)
    ends "_expiry";              (* _expiry$ *)
    ends "_timeout";             (* _timeout$ *)
    ends "_ttl";                 (* _ttl$ *)
    ends "_validity_period";     (* _validity_period$ *)
    ends "_size";                (* _size$ *)
    ends "_count";               (* _count$ *)
    ends "_length";              (* _length$ *)
    starts "max_";               (* ^max_ *)
    starts "min_";               (* ^min_ *)
    ends "_threads";             (* _threads$ *)
    ends "_pool_size";           (* _pool_size$ *)
    ends "_interval" ].          (* _interval$ *)

(** [VALUE_PATTERNS] *)
Definition VALUE_PATTERNS : list regex :=
  [ (* eyJ[A-Za-z0-9_-]*\.[A-Za-z0-9_-]*\.[A-Za-z0-9_-]* *)
    Seq [Word "eyJ"; Star (Cls set_b64url); Lit ".";
         Star (Cls set_b64url); Lit "."; Star (Cls set_b64url)];
    (* ^[A-Za-z0-9+/]{40,}={0,2}$ *)
    Seq [Bol; Rep 40 None (Cls set_b64); Rep 0 (Some 2) (Lit "="); Eol];
    (* ^sk-[A-Za-z0-9_-]{20,} *)
    Seq [Bol; Word "sk-"; Rep 20 None (Cls set_b64url)];
    (* ^[A-Za-z0-9]{32,}$ *)
    Seq [Bol; Rep 32 None (Cls set_alnum); Eol] ].

(** The pattern of [re.sub] in [is_sensitive_key]: one quote character,
    double or single. *)
Definition QUOTE_PATTERN : regex := Cls set_quote.

(** The pattern of [re.match] in [redact_line], written here with dq for
    the double quote character and a blank inside each closing bracket:
    ^(\s* )([a-zA-Z_][a-zA-Z0-9_.-]*(?:\.dq[^dq]*dq )* )\s*=\s*(.+)$
    Its second group is [KEY_PATTERN], whose repeated non-capturing part
    is [SEGMENT_PATTERN]. *)
Definition SEGMENT_PATTERN : regex :=
  Seq [Lit "."; Lit DQ; Star (Cls set_not_dq); Lit DQ].

Definition KEY_PATTERN : regex :=
  Seq [Cls set_alpha_us; Star (Cls set_key_char); Star SEGMENT_PATTERN].

Definition ASSIGNMENT_PATTERN : regex :=
  Seq [Bol; Grp 1 (Star (Cls is_space)); Grp 2 KEY_PATTERN;
       Star (Cls is_space); Lit "="; Star (Cls is_space);
       Grp 3 (Plus Any); Eol].

(** The object: the four configuration attributes set by [__init__] and
    the two attributes [redact_line] updates. *)
Record TOMLRedactor : Type := mkTOMLRedactor {
  redaction_text : list ascii;
  check_values : bool;
  preserve_commented : bool;
  remove_comments : bool;
  redacted_count : Z;
  redacted_lines : gset Z
}.

(** [TOMLRedactor.__init__] *)
Definition init (redaction_text : list ascii)
  (check_values preserve_commented remove_comments : bool) : TOMLRedactor :=
  mkTOMLRedactor redaction_text check_values preserve_commented
    remove_comments 0%Z ∅.

(** [TOMLRedactor()] with the default arguments. *)
Definition default_redactor : TOMLRedactor :=
  init (lit "***REDACTED***") true true false.

(** [TOMLRedactor.is_sensitive_key] *)
Definition key_clean (key : list ascii) : list ascii :=
  PyStr.lower (re_sub QUOTE_PATTERN [] key).

Definition is_sensitive_key (key : list ascii) : bool :=
  let key_clean := key_clean key in
  if existsb (fun pattern => truthy (re_search pattern key_clean))
       CONFIG_EXCLUDE_PATTERNS
  then false
  else if existsb (fun pattern => PyStr.contains pattern key_clean)
            SENSITIVE_PATTERNS
  then true
  else if existsb (fun pattern => truthy (re_search pattern key_clean))
            TOKEN_PATTERNS
  then true
  else false.

(** [TOMLRedactor.is_sensitive_value] *)
Definition clean_value (value : list ascii) : list ascii :=
  PyStr.strip_chars [DQ; SQ] (PyStr.strip value).

Definition is_sensitive_value (self : TOMLRedactor) (value : list ascii)
  : outcome bool :=
  if negb (check_values self) then Return false
  else
    let clean_value := clean_value value in
    if PyStr.startswith clean_value (lit "$")
       || PyStr.startswith clean_value (lit "${")
    then Return false
    else if PyStr.in_tuple (PyStr.lower clean_value)
              [lit "true"; lit "false"]
    then Return false
    else
      try_except_ValueError
        (let* _number := PyFloat.float clean_value in Return false)
        (if existsb (fun pattern => truthy (re_search pattern clean_value))
              VALUE_PATTERNS
         then Return true
         else Return false).

(** The replacement value of [redact_line], in the quote style of the
    value it replaces. *)
Definition redacted_value (self : TOMLRedactor) (value : list ascii)
  : list ascii :=
  let value_stripped := PyStr.strip value in
  if PyStr.startswith value_stripped [DQ] && PyStr.endswith value_stripped [DQ]
  then [DQ] ++ redaction_text self ++ [DQ]
  else if PyStr.startswith value_stripped [SQ]
          && PyStr.endswith value_stripped [SQ]
  then [SQ] ++ redaction_text self ++ [SQ]
  else [DQ] ++ redaction_text self ++ [DQ].

(** The two updates of [self] on a redaction. *)
Definition count_redaction (self : TOMLRedactor) (line_num : Z)
  : TOMLRedactor :=
  mkTOMLRedactor (redaction_text self) (check_values self)
    (preserve_commented self) (remove_comments self)
    (redacted_count self + 1)%Z
    (redacted_lines self ∪ {[ line_num ]}).

(** [TOMLRedactor.redact_line]: the returned line, and [self] after the
    call. *)
Definition redact_line (self : TOMLRedactor) (line : list ascii)
  (line_num : Z) : outcome (list ascii * TOMLRedactor) :=
  let stripped := PyStr.lstrip line in
  if PyFloat.is_nil stripped then Return (line, self)
  else if PyStr.startswith stripped (lit "#") then
    if remove_comments self then Return ([], self)
    else if preserve_commented self then Return (line, self)
    else Return (line, self)
  else
    match re_match ASSIGNMENT_PATTERN line with
    | None => Return (line, self)
    | Some m =>
        let indent := group 1 m in
        let key := group 2 m in
        let value := group 3 m in
        let* sensitive :=
          (if is_sensitive_key key then Return true
           else is_sensitive_value self value) in
        if (sensitive : bool) then
          Return (indent ++ key ++ lit " = " ++ redacted_value self value
                    ++ [NL],
                  count_redaction self line_num)
        else Return (line, self)
    end.

(** ** The rest of the class: [redact_file] and [get_report]

    Further builtins first.  Reading and writing a file, and printing,
    are the effects of [redact_file]: what reading gave and whether
    writing succeeds are arguments; what is printed and written is part
    of the result. *)

Module PyBuiltin.

(** [str(n)] of an [int] *)
Definition str_int (n : Z) : list ascii :=
  list_ascii_of_string (NilZero.string_of_int (Z.to_int n)).

(** [sep.join(parts)] *)
Fixpoint join (sep : list ascii) (parts : list (list ascii)) : list ascii :=
  match parts with
  | [] => []
  | [p] => p
  | p :: ps => p ++ sep ++ join sep ps
  end.

(** [sorted(s)] of a set of ints *)
Definition sorted (s : gset Z) : list Z := merge_sort Z.le (elements s).

(** [f.readlines()] on the text of a file opened for reading in text
    mode (every line end already is one newline character): the lines in
    order, each with its newline, the last one possibly without. *)
Fixpoint readlines (text : list ascii) : list (list ascii) :=
  match text with
  | [] => []
  | c :: text' =>
      if chr_eqb c NL then [c] :: readlines text'
      else
        match readlines text' with
        | [] => [[c]]
        | line :: lines => (c :: line) :: lines
        end
  end.

End PyBuiltin.

(** The result of an operation on a file: its value, or the message of
    the exception it raised. *)
Inductive io (A : Type) : Type :=
| IoOk (a : A)
| IoError (message : list ascii).
Arguments IoOk {A} a.
Arguments IoError {A} message.

(** What has been printed so far. *)
Record console : Type := Console {
  stdout : list ascii;
  stderr : list ascii
}.

(** [print(text)] and [print(text, file=sys.stderr)] *)
Definition print (text : list ascii) (c : console) : console :=
  Console (stdout c ++ text ++ [NL]) (stderr c).
Definition print_err (text : list ascii) (c : console) : console :=
  Console (stdout c) (stderr c ++ text ++ [NL]).

(** The loop of [redact_file]:
    [for line_num, line in enumerate(lines, start=1)], here from any
    first number: the returned lines in order, and [self] at the end. *)
Fixpoint redact_lines (self : TOMLRedactor) (lines : list (list ascii))
  (line_num : Z) : outcome (list (list ascii) * TOMLRedactor) :=
  match lines with
  | [] => Return ([], self)
  | line :: rest =>
      let* r := redact_line self line line_num in
      let* rs := redact_lines (snd r) rest (line_num + 1)%Z in
      Return (fst r :: fst rs, snd rs)
  end.

(** What [redact_file] leaves behind: the value it returns, [self], the
    console, and the text written to the output file, if any. *)
Record file_run : Type := FileRun {
  run_success : bool;
  run_self : TOMLRedactor;
  run_console : console;
  run_written : option (list ascii)
}.

(** The [except Exception as e] branch of [redact_file]. *)
Definition file_error (message : list ascii) (self : TOMLRedactor)
  (c : console) : file_run :=
  FileRun false self
    (print_err (lit "Error processing file: " ++ message) c) None.

(** [TOMLRedactor.redact_file].  [read] is what opening the input and
    [f.readlines()] gave; [output_path] is the text of the output path,
    if there is one; [write content] is what opening the output and
    [f.write(content)] gives; [exn_text e] is [str(e)] of an exception
    raised in between. *)
Definition redact_file (exn_text : exn -> list ascii)
  (self : TOMLRedactor) (read : io (list (list ascii)))
  (output_path : option (list ascii)) (write : list ascii -> io unit)
  (c : console) : file_run :=
  match read with
  | IoError message => file_error message self c
  | IoOk lines =>
      match redact_lines self lines 1 with
      | Raise e => file_error (exn_text e) self c
      | Return (redacted_lines, self') =>
          let output_content := PyBuiltin.join [] redacted_lines in
          match output_path with
          | Some path =>
              match write output_content with
              | IoError message => file_error message self' c
              | IoOk _ =>
                  FileRun true self'
                    (print (lit "Output written to: " ++ path)
                       (print (lit "Redacted "
                                 ++ PyBuiltin.str_int (redacted_count self')
                                 ++ lit " sensitive fields") c))
                    (Some output_content)
              end
          | None =>
              FileRun true self'
                (print_err ([NL] ++ lit "# Redacted "
                              ++ PyBuiltin.str_int (redacted_count self')
                              ++ lit " sensitive fields")
                   (print output_content c))
                None
          end
      end
  end.

(** [TOMLRedactor.get_report] *)
Definition get_report (self : TOMLRedactor) : list ascii :=
  if bool_decide (redacted_lines self = ∅)
  then lit "No sensitive data found."
  else
    let lines_str :=
      PyBuiltin.join (lit ", ")
        (map PyBuiltin.str_int (PyBuiltin.sorted (redacted_lines self))) in
    lit "Redacted " ++ PyBuiltin.str_int (redacted_count self)
      ++ lit " sensitive fields" ++ [NL]
      ++ lit "Lines modified: " ++ lines_str.

(** * Vocabulary of the properties

    The definitions below are not part of the program: they say what a
    pattern means, name the shapes of text the proofs speak of, and fix
    the sample lines used as instances. *)

(** ** What a match means

    [Matches r p u f g g']: pattern [r] matches the text [u] when [p] is
    the character before [u] and [f] is the text after it, and turns the
    groups [g] into [g'].  It is the reading of a pattern as a set of
    texts, against which the backtracking matcher is checked. *)

Definition groups : Type := gmap nat (list ascii).

Fixpoint Iter
  (M : option ascii -> list ascii -> list ascii -> groups -> groups -> Prop)
  (n : nat) (p : option ascii) (u f : list ascii) (g g' : groups) : Prop :=
  match n with
  | O => u = [] /\ g' = g
  | S n' =>
      exists u1 u2 g1,
        u = u1 ++ u2 /\ u1 <> [] /\ M p u1 (u2 ++ f) g g1 /\
        Iter M n' (after p u1) u2 f g1 g'
  end.

Fixpoint Matches (r : regex) (p : option ascii) (u f : list ascii)
  (g g' : groups) : Prop :=
  match r with
  | Lit c => u = [c] /\ g' = g
  | Cls cls => exists c, u = [c] /\ cls c = true /\ g' = g
  | Any => exists c, u = [c] /\ c <> NL /\ g' = g
  | Cat r1 r2 =>
      exists u1 u2 g1,
        u = u1 ++ u2 /\ Matches r1 p u1 (u2 ++ f) g g1 /\
        Matches r2 (after p u1) u2 f g1 g'
  | Rep lo hi r1 =>
      exists n, lo <= n /\ at_most hi n = true /\
                Iter (Matches r1) n p u f g g'
  | Bol => u = [] /\ p = None /\ g' = g
  | Eol => u = [] /\ (f = [] \/ f = [NL]) /\ g' = g
  | WordB =>
      u = [] /\ xorb (is_word_opt p) (is_word_opt (hd_error f)) = true /\
      g' = g
  | Grp i r1 => exists g1, Matches r1 p u f g g1 /\ g' = <[i := u]> g1
  end.

(** The position reached from [st] by reading [u], with groups [g]. *)
Definition reached (st : mstate) (u f : list ascii) (g : groups) : mstate :=
  MState (after (m_prev st) u) f g.

(** ** Shapes of text *)

(** Any character but the newline: what the dot matches. *)
Definition not_nl (c : ascii) : bool := negb (chr_eqb c NL).

(** A key is a letter or underscore, a run of key characters, and any
    number of quoted segments: a dot, a double quote, a body without
    double quote, a double quote. *)
Inductive quoted_segments : list ascii -> Prop :=
| segments_nil : quoted_segments []
| segments_cons (body rest : list ascii) :
    forallb set_not_dq body = true ->
    quoted_segments rest ->
    quoted_segments ("."%char :: DQ :: body ++ DQ :: rest).

Definition key_shape (k : list ascii) : Prop :=
  exists c0 run segs,
    k = c0 :: run ++ segs /\ set_alpha_us c0 = true /\
    forallb set_key_char run = true /\ quoted_segments segs.

(** [assignment_of line indent key value]: the line is white space, a
    key, white space, an equals sign, white space, a non-empty value
    without newline, and at most one final newline. *)
Definition assignment_of (line indent key value : list ascii) : Prop :=
  exists w1 w2 e,
    line = indent ++ key ++ w1 ++ "="%char :: w2 ++ value ++ e /\
    forallb is_space indent = true /\ key_shape key /\
    forallb is_space w1 = true /\ forallb is_space w2 = true /\
    value <> [] /\ forallb not_nl value = true /\ (e = [] \/ e = [NL]).

(** The extent of the key at the head of a text, read off by one scan
    that tracks whether it is inside a quoted segment: outside of one,
    the key ends at the first white space or equals sign. *)
Fixpoint key_scan (inq : bool) (s : list ascii) : list ascii :=
  match s with
  | [] => []
  | c :: s' =>
      if inq then c :: key_scan (negb (chr_eqb c DQ)) s'
      else if is_space c || chr_eqb c "=" then []
      else c :: key_scan (chr_eqb c DQ) s'
  end.

(** The line that a redaction returns. *)
Definition redacted_line (indent key : list ascii) (q : ascii)
  (text : list ascii) : list ascii :=
  indent ++ key ++ lit " = " ++ ([q] ++ text ++ [q]) ++ [NL].

(** Two objects with the same four configuration attributes. *)
Definition same_config (a b : TOMLRedactor) : Prop :=
  redaction_text a = redaction_text b /\
  check_values a = check_values b /\
  preserve_commented a = preserve_commented b /\
  remove_comments a = remove_comments b.

(** The classifier said yes. *)
Definition returns_true (o : outcome bool) : bool :=
  match o with Return true => true | _ => false end.

(** The prefixes and suffixes that the exclude patterns name. *)
Definition EXCLUDED_PREFIXES : list string :=
  [ "allow_"; "enable_"; "disable_"; "show_"; "display_"; "retain_";
    "max_"; "min_" ]%string.

Definition EXCLUDED_SUFFIXES : list string :=
  [ "_time"; "_period"; "_expiry"; "_timeout"; "_ttl"; "_validity_period";
    "_size"; "_count"; "_length"; "_threads"; "_pool_size";
    "_interval" ]%string.

(** ** Sample lines *)

(** A comment that holds a password assignment. *)
Definition commented_password : list ascii :=
  lit "  # password = " ++ [DQ] ++ lit "hunter2" ++ [DQ; NL].

(** An indented assignment with a single-quoted value and blanks around
    it. *)
Definition quoted_token_line : list ascii :=
  lit "  auth_token =  'abc123' " ++ [NL].

(** A last line of a file: no newline, no blank before the equals sign. *)
Definition unterminated_secret_line : list ascii :=
  lit "client_secret=    s3cr3t".

(** A JWT-shaped text inside a double and a single pair of quotes. *)
Definition doubly_quoted_jwt : list ascii :=
  [SQ; DQ] ++ lit "eyJhbGci.eyJzdWIi.c2ln" ++ [DQ; SQ].

(** A password assignment, and the line the default engine returns for
    it. *)
Definition password_line : list ascii :=
  lit "password = " ++ [DQ] ++ lit "hunter2" ++ [DQ; NL].

Definition redacted_password_line : list ascii :=
  lit "password = " ++ [DQ] ++ lit "***REDACTED***" ++ [DQ; NL].

(** ** Vocabulary of the further properties *)

(** [self] with another value of the attribute [preserve_commented]. *)
Definition with_preserve_commented (b : bool) (self : TOMLRedactor)
  : TOMLRedactor :=
  mkTOMLRedactor (redaction_text self) (check_values self) b
    (remove_comments self) (redacted_count self) (redacted_lines self).

(** The same change on what [redact_line] returns. *)
Definition map_self (f : TOMLRedactor -> TOMLRedactor)
  (o : outcome (list ascii * TOMLRedactor))
  : outcome (list ascii * TOMLRedactor) :=
  match o with
  | Return (out, self) => Return (out, f self)
  | Raise e => Raise e
  end.

(** The states of an object: [reachable s0 s] when [s] comes from [s0]
    by some number of calls of [redact_line], on any lines with any line
    numbers. *)
Inductive reachable (s0 : TOMLRedactor) : TOMLRedactor -> Prop :=
| reach_start : reachable s0 s0
| reach_call (s : TOMLRedactor) (line : list ascii) (line_num : Z)
    (out : list ascii) (s' : TOMLRedactor) :
    reachable s0 s ->
    redact_line s line line_num = Return (out, s') ->
    reachable s0 s'.



(** A quoted key at the start of a line, and an assignment with nothing
    after the equals sign. *)
Definition quoted_key_line : list ascii :=
  [DQ] ++ lit "password" ++ [DQ] ++ lit " = " ++ [DQ] ++ lit "hunter2"
    ++ [DQ; NL].

Definition empty_password_line : list ascii := lit "password =" ++ [NL].

(** The word [token] standing by itself in a text: no word character
    right before it and none right after it. *)
Definition token_word (s : list ascii) : Prop :=
  exists pre post,
    s = pre ++ lit "token" ++ post /\
    is_word_opt (after None pre) = false /\
    is_word_opt (hd_error post) = false.

(** The terms of [SENSITIVE_PATTERNS] that are not contained in a longer
    term of the same set. *)
Definition EFFECTIVE_TERMS : list (list ascii) :=
  [ lit "password"; lit "passwd"; lit "pwd"; lit "key"; lit "secret";
    lit "auth_token"; lit "access_token"; lit "refresh_token";
    lit "bearer_token"; lit "credential" ].

(** The four shapes of text that [VALUE_PATTERNS] describes. *)
Definition jwt_shape (s : list ascii) : Prop :=
  exists pre a b post,
    s = pre ++ lit "eyJ" ++ a ++ "."%char :: b ++ "."%char :: post /\
    forallb set_b64url a = true /\ forallb set_b64url b = true.

Definition base64_shape (s : list ascii) : Prop :=
  exists body pad e,
    s = body ++ pad ++ e /\ forallb set_b64 body = true /\
    40 <= length body /\
    (pad = [] \/ pad = lit "=" \/ pad = lit "==") /\
    (e = [] \/ e = [NL]).

Definition sk_shape (s : list ascii) : Prop :=
  exists body post,
    s = lit "sk-" ++ body ++ post /\ forallb set_b64url body = true /\
    20 <= length body.

Definition alnum_shape (s : list ascii) : Prop :=
  exists body e,
    s = body ++ e /\ forallb set_alnum body = true /\
    32 <= length body /\ (e = [] \/ e = [NL]).





(** A file of three lines, the second of which holds a password. *)
Definition three_line_file : list (list ascii) :=
  [ lit "[database]" ++ [NL]; password_line; lit "port = 5432" ++ [NL] ].

(** The text of a file without anything sensitive; its last line has no
    newline. *)
Definition plain_settings_text : list ascii :=
  lit "[server]" ++ [NL] ++ lit "# listen on all interfaces" ++ [NL]
    ++ lit "host = 0.0.0.0" ++ [NL] ++ lit "max_token_count = 5".

(** * Properties *)


(** ** The matcher against the meaning of a pattern *)

Lemma chr_eqb_eq (a b : ascii) : chr_eqb a b = true <-> a = b.
Proof. apply Ascii.eqb_eq. Qed.

Lemma chr_eqb_neq (a b : ascii) : chr_eqb a b = false <-> a <> b.
Proof. apply Ascii.eqb_neq. Qed.

Lemma after_app (p : option ascii) (u v : list ascii) :
  after p (u ++ v) = after (after p u) v.
Proof. revert p; induction u as [|c u IH]; intros p; simpl; auto. Qed.

Lemma first_of_Some {A : Type} (x y : option A) (a : A) :
  first_of x y = Some a -> x = Some a \/ (x = None /\ y = Some a).
Proof. destruct x; simpl; auto. Qed.

Lemma consumed_app (st : mstate) (u f : list ascii) (g : groups) :
  m_rest st = u ++ f -> consumed st (reached st u f g) = u.
Proof.
  intros E. unfold consumed, reached. simpl. rewrite E.
  rewrite length_app.
  replace (length u + length f - length f) with (length u) by lia.
  rewrite firstn_app, firstn_all, Nat.sub_diag. simpl.
  apply app_nil_r.
Qed.

Section Soundness.

Variable item : mstate -> (mstate -> option mstate) -> option mstate.
Variable M : option ascii -> list ascii -> list ascii -> groups -> groups -> Prop.

Hypothesis item_sound : forall st k res,
  item st k = Some res ->
  exists u f g', m_rest st = u ++ f /\ M (m_prev st) u f (m_groups st) g' /\
                 k (reached st u f g') = Some res.

(** Every way out of the loop has read a number of items that respects
    both bounds. *)
Lemma rep_loop_sound lo hi k fuel : forall n st res,
  at_most hi n = true ->
  rep_loop item lo hi k fuel n st = Some res ->
  exists m u f g',
    m_rest st = u ++ f /\ lo <= n + m /\ at_most hi (n + m) = true /\
    Iter M m (m_prev st) u f (m_groups st) g' /\
    k (reached st u f g') = Some res.
Proof.
  induction fuel as [|fuel IH]; intros n st res Hn H; simpl in H.
  - destruct (lo <=? n) eqn:Hlo; [|discriminate].
    apply Nat.leb_le in Hlo.
    exists 0, [], (m_rest st), (m_groups st).
    rewrite Nat.add_0_r. repeat split; auto.
    destruct st; exact H.
  - apply first_of_Some in H as [H|[_ H]].
    + destruct (at_most hi (S n)) eqn:Hhi; [|discriminate].
      apply item_sound in H as (u1 & f1 & g1 & E1 & HM & H).
      destruct (length (m_rest (reached st u1 f1 g1)) <? length (m_rest st))
        eqn:Hlt; [|discriminate].
      apply IH in H as (m & u2 & f & g' & E2 & Hlo & Hhi' & HI & H); auto.
      simpl in E2, HI, H.
      exists (S m), (u1 ++ u2), f, g'.
      rewrite E1, E2, <- app_assoc, Nat.add_succ_r.
      repeat split; auto.
      * exists u1, u2, g1. repeat split; auto.
        -- intros ->. apply Nat.ltb_lt in Hlt. simpl in Hlt.
           rewrite E1 in Hlt. simpl in Hlt. lia.
        -- rewrite <- E2. exact HM.
      * unfold reached in *. simpl in *. rewrite after_app. exact H.
    + destruct (lo <=? n) eqn:Hlo; [|discriminate].
      apply Nat.leb_le in Hlo.
      exists 0, [], (m_rest st), (m_groups st).
      rewrite Nat.add_0_r. repeat split; auto.
      destruct st; exact H.
Qed.

End Soundness.

(** The matcher only returns matches: when [rmatch r st k] succeeds, [r]
    matches a prefix [u] of the remaining text and [k] succeeded at the
    position after [u]. *)
Lemma rmatch_sound (r : regex) : forall st k res,
  rmatch r st k = Some res ->
  exists u f g', m_rest st = u ++ f /\
                 Matches r (m_prev st) u f (m_groups st) g' /\
                 k (reached st u f g') = Some res.
Proof.
  induction r as [c|cls| |r1 IH1 r2 IH2|lo hi r1 IH1| | | |i r1 IH1];
    intros st k res H; simpl in H.
  - destruct (m_rest st) as [|x s] eqn:E; [discriminate|].
    destruct (chr_eqb x c) eqn:Hc; [|discriminate].
    apply chr_eqb_eq in Hc as ->.
    exists [c], s, (m_groups st). simpl. auto.
  - destruct (m_rest st) as [|x s] eqn:E; [discriminate|].
    destruct (cls x) eqn:Hc; [|discriminate].
    exists [x], s, (m_groups st). simpl. eauto 6.
  - destruct (m_rest st) as [|x s] eqn:E; [discriminate|].
    destruct (chr_eqb x NL) eqn:Hc; [discriminate|].
    apply chr_eqb_neq in Hc.
    exists [x], s, (m_groups st). simpl. eauto 6.
  - apply IH1 in H as (u1 & f1 & g1 & E1 & HM1 & H).
    apply IH2 in H as (u2 & f & g' & E2 & HM2 & H).
    simpl in E2, HM2, H.
    exists (u1 ++ u2), f, g'. rewrite E1, E2, <- app_assoc.
    split; [reflexivity|]. split.
    + simpl. exists u1, u2, g1. rewrite <- E2. auto.
    + unfold reached in *. simpl in *. rewrite after_app. exact H.
  - apply (rep_loop_sound _ _ IH1) in H
      as (m & u & f & g' & E & Hlo & Hhi & HI & H).
    + exists u, f, g'. simpl. eauto 8.
    + destruct hi; reflexivity.
  - destruct st as [p s g]; simpl in *.
    destruct p; [discriminate|].
    exists [], s, g. simpl. auto.
  - destruct st as [p s g]; simpl in *.
    exists [], s, g. simpl.
    destruct s as [|c [|d s]]; try discriminate; auto 6.
    destruct (chr_eqb c NL) eqn:Hc; [|discriminate].
    apply chr_eqb_eq in Hc as ->. auto 6.
  - destruct st as [p s g]; simpl in *.
    destruct (xorb _ _) eqn:Hx; [|discriminate].
    exists [], s, g. simpl. auto.
  - apply IH1 in H as (u & f & g1 & E & HM & H).
    exists u, f, (<[i := u]> g1). split; [exact E|]. split.
    + simpl. eauto.
    + unfold close_group in H. rewrite (consumed_app _ _ _ _ E) in H.
      exact H.
Qed.

(** A match object returned by [re.match] describes a match of a prefix
    of the text. *)
Lemma re_match_sound (r : regex) (s : list ascii) (m : mstate) :
  re_match r s = Some m ->
  exists u f, s = u ++ f /\ Matches r None u f ∅ (m_groups m).
Proof.
  unfold re_match, match_at. intros H.
  apply rmatch_sound in H as (u & f & g' & E & HM & H).
  simpl in *. injection H as <-. eauto.
Qed.

Lemma at_most_le (hi : option nat) (n m : nat) :
  n <= m -> at_most hi m = true -> at_most hi n = true.
Proof.
  destruct hi as [h|]; simpl; auto.
  intros Hnm H. apply Nat.leb_le in H. apply Nat.leb_le. lia.
Qed.

Section Completeness.

Variable item : mstate -> (mstate -> option mstate) -> option mstate.
Variable M : option ascii -> list ascii -> list ascii -> groups -> groups -> Prop.

Hypothesis item_complete : forall st k u f g' x,
  m_rest st = u ++ f -> M (m_prev st) u f (m_groups st) g' ->
  k (reached st u f g') = Some x ->
  exists y, item st k = Some y.

(** The loop finds a way out whenever some number of items within the
    bounds leads to a position where [k] succeeds. *)
Lemma rep_loop_complete lo hi k m : forall fuel n st u f g' x,
  length (m_rest st) <= fuel ->
  m_rest st = u ++ f ->
  Iter M m (m_prev st) u f (m_groups st) g' ->
  lo <= n + m -> at_most hi (n + m) = true ->
  k (reached st u f g') = Some x ->
  exists y, rep_loop item lo hi k fuel n st = Some y.
Proof.
  induction m as [|m IH]; intros fuel n st u f g' x Hfuel E HI Hlo Hhi Hk.
  - destruct HI as [-> ->]. rewrite Nat.add_0_r in Hlo.
    assert (Hstop : (if lo <=? n then k st else None) = Some x).
    { apply Nat.leb_le in Hlo. rewrite Hlo.
      destruct st; simpl in *. subst. exact Hk. }
    destruct fuel; simpl; rewrite Hstop.
    + eauto.
    + destruct (if at_most hi (S n) then _ else _); simpl; eauto.
  - destruct HI as (u1 & u2 & g1 & -> & Hne & HM & HI).
    destruct fuel as [|fuel].
    { rewrite E in Hfuel. destruct u1; [congruence|simpl in Hfuel; lia]. }
    simpl.
    rewrite (at_most_le hi (S n) (n + S m)) by (auto; lia).
    rewrite <- app_assoc in E.
    destruct (item_complete st
      (fun st1 => if length (m_rest st1) <? length (m_rest st)
                  then rep_loop item lo hi k fuel (S n) st1 else None)
      u1 (u2 ++ f) g1) with
      (x := default x (rep_loop item lo hi k fuel (S n)
                         (reached st u1 (u2 ++ f) g1))) as [y Hy]; auto.
    + simpl.
      assert (Hlt : length (u2 ++ f) < length (m_rest st)).
      { rewrite E, (length_app u1). destruct u1; [congruence|simpl; lia]. }
      apply Nat.ltb_lt in Hlt. rewrite Hlt.
      destruct (IH fuel (S n) (reached st u1 (u2 ++ f) g1) u2 f g' x)
        as [y Hy]; simpl; auto.
      * rewrite E, length_app in Hfuel.
        destruct u1; [congruence|simpl in Hfuel; lia].
      * lia.
      * rewrite <- Hhi. f_equal. lia.
      * unfold reached in *. simpl. rewrite <- after_app. exact Hk.
      * rewrite Hy. reflexivity.
    + rewrite Hy. simpl. eauto.
Qed.

End Completeness.

(** The matcher finds a match whenever there is one: if [r] matches a
    prefix [u] of the remaining text and [k] succeeds after [u], then
    [rmatch r st k] succeeds (possibly with another match that comes
    earlier in the order of the search). *)
Lemma rmatch_complete (r : regex) : forall st k u f g' x,
  m_rest st = u ++ f ->
  Matches r (m_prev st) u f (m_groups st) g' ->
  k (reached st u f g') = Some x ->
  exists y, rmatch r st k = Some y.
Proof.
  induction r as [c|cls| |r1 IH1 r2 IH2|lo hi r1 IH1| | | |i r1 IH1];
    intros [p s g] k u f g' x E HM Hk; simpl in *.
  - destruct HM as [-> ->]. subst s. simpl.
    unfold chr_eqb. rewrite Ascii.eqb_refl. eauto.
  - destruct HM as (c & -> & Hc & ->). subst s. simpl. rewrite Hc. eauto.
  - destruct HM as (c & -> & Hc & ->). subst s. simpl.
    apply chr_eqb_neq in Hc. rewrite Hc. eauto.
  - destruct HM as (u1 & u2 & g1 & -> & HM1 & HM2).
    rewrite <- app_assoc in E.
    destruct (IH2 (reached (MState p s g) u1 (u2 ++ f) g1) k u2 f g' x)
      as [y Hy]; simpl; auto.
    { unfold reached in *. simpl in *. rewrite <- after_app. exact Hk. }
    eapply (IH1 (MState p s g)); simpl; eauto.
  - destruct HM as (n & Hlo & Hhi & HI).
    eapply (rep_loop_complete _ _ IH1 lo hi k n) with (st := MState p s g);
      simpl; eauto.
  - destruct HM as (-> & -> & ->). subst s. eauto.
  - destruct HM as (-> & Hf & ->). simpl in E. subst s.
    destruct Hf as [->| ->]; simpl; eauto.
  - destruct HM as (-> & Hx & ->). simpl in E. subst s.
    rewrite Hx. eauto.
  - destruct HM as (g1 & HM & ->).
    eapply (IH1 (MState p s g)); simpl; eauto.
    unfold close_group.
    rewrite (consumed_app (MState p s g) u f g1 E). exact Hk.
Qed.

(** [re.match] succeeds exactly when the pattern matches a prefix. *)
Lemma re_match_iff (r : regex) (s : list ascii) :
  truthy (re_match r s) = true <->
  exists u f g', s = u ++ f /\ Matches r None u f ∅ g'.
Proof.
  split.
  - destruct (re_match r s) as [m|] eqn:H; [|discriminate]. intros _.
    apply re_match_sound in H as (u & f & E & HM). eauto.
  - intros (u & f & g' & E & HM).
    destruct (rmatch_complete r (MState None s ∅) Some u f g'
                (reached (MState None s ∅) u f g')) as [y Hy]; auto.
    unfold re_match, match_at. rewrite Hy. reflexivity.
Qed.

(** [re.search] succeeds exactly when the pattern matches somewhere. *)
Lemma search_from_iff (r : regex) (s : list ascii) : forall p,
  truthy (search_from r p s) = true <->
  exists pre u f g', s = pre ++ u ++ f /\ Matches r (after p pre) u f ∅ g'.
Proof.
  induction s as [|c s IH]; intros p; simpl.
  - split.
    + destruct (match_at r p []) as [m|] eqn:H; [|discriminate]. intros _.
      apply rmatch_sound in H as (u & f & g' & E & HM & _). simpl in *.
      exists [], u, f, g'. auto.
    + intros (pre & u & f & g' & E & HM).
      destruct pre; [|discriminate]. simpl in *.
      destruct (rmatch_complete r (MState p [] ∅) Some u f g'
                  (reached (MState p [] ∅) u f g')) as [y Hy]; auto.
      unfold match_at. rewrite Hy. reflexivity.
  - split.
    + destruct (match_at r p (c :: s)) as [m|] eqn:H.
      * intros _.
        apply rmatch_sound in H as (u & f & g' & E & HM & _). simpl in *.
        exists [], u, f, g'. auto.
      * simpl. intros H'. apply IH in H' as (pre & u & f & g' & -> & HM).
        exists (c :: pre), u, f, g'. auto.
    + intros (pre & u & f & g' & E & HM).
      destruct pre as [|c' pre]; simpl in *.
      * destruct (rmatch_complete r (MState p (c :: s) ∅) Some u f g'
                    (reached (MState p (c :: s) ∅) u f g')) as [y Hy]; auto.
        unfold match_at. rewrite Hy. reflexivity.
      * injection E as <- ->.
        destruct (match_at r p _); [reflexivity|]. simpl.
        apply IH. eauto 6.
Qed.

Lemma re_search_iff (r : regex) (s : list ascii) :
  truthy (re_search r s) = true <->
  exists pre u f g', s = pre ++ u ++ f /\
                     Matches r (after None pre) u f ∅ g'.
Proof. apply search_from_iff. Qed.

(** ** Repetitions of one character *)

Lemma iter_cls_inv (cls : ascii -> bool) (n : nat) : forall p u f g g',
  Iter (Matches (Cls cls)) n p u f g g' ->
  forallb cls u = true /\ g' = g /\ length u = n.
Proof.
  induction n as [|n IH]; intros p u f g g' H; simpl in H.
  - destruct H as [-> ->]. auto.
  - destruct H as (u1 & u2 & g1 & -> & _ & (c & -> & Hc & ->) & H).
    apply IH in H as (H1 & H2 & H3). simpl. rewrite Hc, H1, H3. auto.
Qed.

Lemma iter_cls_intro (cls : ascii -> bool) (u : list ascii) : forall p f g,
  forallb cls u = true -> Iter (Matches (Cls cls)) (length u) p u f g g.
Proof.
  induction u as [|c u IH]; intros p f g H; simpl in *; auto.
  apply andb_true_iff in H as [Hc H].
  exists [c], u, g.
  split; [reflexivity|]. split; [discriminate|].
  split; [exists c; auto|apply IH; exact H].
Qed.

Lemma star_cls_inv (cls : ascii -> bool) p u f g g' :
  Matches (Star (Cls cls)) p u f g g' -> forallb cls u = true /\ g' = g.
Proof.
  intros (n & _ & _ & H). apply iter_cls_inv in H as (H1 & H2 & _). auto.
Qed.

Lemma star_cls_intro (cls : ascii -> bool) p u f g :
  forallb cls u = true -> Matches (Star (Cls cls)) p u f g g.
Proof.
  intros H. exists (length u). repeat split; [lia|]. now apply iter_cls_intro.
Qed.

Lemma iter_any_inv (n : nat) : forall p u f g g',
  Iter (Matches Any) n p u f g g' ->
  forallb not_nl u = true /\ g' = g /\ length u = n.
Proof.
  induction n as [|n IH]; intros p u f g g' H; simpl in H.
  - destruct H as [-> ->]. auto.
  - destruct H as (u1 & u2 & g1 & -> & _ & (c & -> & Hc & ->) & H).
    apply IH in H as (H1 & H2 & H3). simpl. unfold not_nl at 1.
    apply chr_eqb_neq in Hc. rewrite Hc, H1, H3. auto.
Qed.

Lemma iter_any_intro (u : list ascii) : forall p f g,
  forallb not_nl u = true -> Iter (Matches Any) (length u) p u f g g.
Proof.
  induction u as [|c u IH]; intros p f g H; simpl in *; auto.
  apply andb_true_iff in H as [Hc H].
  exists [c], u, g.
  split; [reflexivity|]. split; [discriminate|].
  split; [|apply IH; exact H].
  exists c. split; [reflexivity|]. split; [|reflexivity].
  apply chr_eqb_neq. unfold not_nl in Hc. now destruct (chr_eqb c NL).
Qed.

(** ** The key pattern *)

Lemma segment_inv p u f g g' :
  Matches SEGMENT_PATTERN p u f g g' ->
  exists body, u = "."%char :: DQ :: body ++ [DQ] /\
               forallb set_not_dq body = true /\ g' = g.
Proof.
  simpl. intros (u1 & u2 & g1 & -> & [-> ->] & u3 & u4 & g2 & -> &
                 [-> ->] & u5 & u6 & g3 & -> & H & [-> ->]).
  apply (star_cls_inv set_not_dq) in H as [H ->]. exists u5. auto.
Qed.

Lemma segment_intro p body f g :
  forallb set_not_dq body = true ->
  Matches SEGMENT_PATTERN p ("."%char :: DQ :: body ++ [DQ]) f g g.
Proof.
  intros H. simpl.
  exists ["."%char], (DQ :: body ++ [DQ]), g.
  split; [reflexivity|]. split; [split; reflexivity|].
  exists [DQ], (body ++ [DQ]), g.
  split; [reflexivity|]. split; [split; reflexivity|].
  exists body, [DQ], g.
  split; [reflexivity|].
  split; [now apply (star_cls_intro set_not_dq)|split; reflexivity].
Qed.

Lemma iter_segment_inv (n : nat) : forall p u f g g',
  Iter (Matches SEGMENT_PATTERN) n p u f g g' ->
  quoted_segments u /\ g' = g.
Proof.
  induction n as [|n IH]; intros p u f g g' H.
  - destruct H as [-> ->]. split; [constructor|reflexivity].
  - destruct H as (u1 & u2 & g1 & -> & _ & H1 & H).
    apply segment_inv in H1 as (body & -> & Hb & ->).
    apply IH in H as [H ->]. split; [|reflexivity].
    simpl. rewrite <- app_assoc. simpl. now constructor.
Qed.

Lemma iter_segment_intro (u : list ascii) :
  quoted_segments u ->
  forall p f g, exists n, Iter (Matches SEGMENT_PATTERN) n p u f g g.
Proof.
  induction 1 as [|body rest Hb _ IH]; intros p f g.
  - exists 0. simpl. auto.
  - destruct (IH (after p ("."%char :: DQ :: body ++ [DQ])) f g) as [n Hn].
    exists (S n), ("."%char :: DQ :: body ++ [DQ]), rest, g.
    split; [simpl; rewrite <- app_assoc; reflexivity|].
    split; [discriminate|].
    split; [now apply segment_intro|exact Hn].
Qed.

Lemma key_pattern_inv p u f g g' :
  Matches KEY_PATTERN p u f g g' -> key_shape u /\ g' = g.
Proof.
  intros (u1 & u2 & g1 & -> & (c0 & -> & Hc & ->) &
          u3 & u4 & g2 & -> & H3 & n & _ & _ & H4).
  apply (star_cls_inv set_key_char) in H3 as [H3 ->].
  apply iter_segment_inv in H4 as [H4 ->].
  split; [|reflexivity]. exists c0, u3, u4. auto.
Qed.

Lemma key_pattern_intro p k f g :
  key_shape k -> Matches KEY_PATTERN p k f g g.
Proof.
  intros (c0 & run & segs & -> & Hc & Hr & Hs).
  exists [c0], (run ++ segs), g.
  split; [reflexivity|]. split; [exists c0; auto|].
  exists run, segs, g.
  split; [reflexivity|].
  split; [now apply (star_cls_intro set_key_char)|].
  destruct (iter_segment_intro segs Hs (after (after p [c0]) run) f g)
    as [n Hn].
  exists n. split; [lia|]. split; [reflexivity|exact Hn].
Qed.

(** ** The assignment pattern *)

Lemma plus_any_inv p u f g g' :
  Matches (Plus Any) p u f g g' ->
  u <> [] /\ forallb not_nl u = true /\ g' = g.
Proof.
  intros (n & Hn & _ & H). apply iter_any_inv in H as (H1 & H2 & H3).
  repeat split; auto. intros ->. simpl in H3. lia.
Qed.

Lemma plus_any_intro p u f g :
  u <> [] -> forallb not_nl u = true -> Matches (Plus Any) p u f g g.
Proof.
  intros Hne H. exists (length u).
  split; [destruct u; [congruence|simpl; lia]|].
  split; [reflexivity|now apply iter_any_intro].
Qed.

Lemma assignment_groups (i k v : list ascii) (g : groups) :
  g = <[3 := v]> (<[2 := k]> (<[1 := i]> ∅)) ->
  group 1 (MState None [] g) = i /\ group 2 (MState None [] g) = k /\
  group 3 (MState None [] g) = v.
Proof.
  intros ->. unfold group; simpl. repeat split; reflexivity.
Qed.

Lemma group_groups (n : nat) (m : mstate) (p : option ascii)
  (s : list ascii) :
  group n m = group n (MState p s (m_groups m)).
Proof. reflexivity. Qed.

(** A successful [re.match] gives the three groups of an assignment. *)
Lemma assignment_sound (line : list ascii) (m : mstate) :
  re_match ASSIGNMENT_PATTERN line = Some m ->
  assignment_of line (group 1 m) (group 2 m) (group 3 m).
Proof.
  intros H. apply re_match_sound in H as (u & f & -> & HM).
  unfold ASSIGNMENT_PATTERN in HM. cbn [Seq Matches] in HM.
  destruct HM as (u0 & r0 & g0 & -> & (-> & _ & ->) &
                  i & r1 & g1 & -> & (g1' & Hi & ->) &
                  k & r2 & g2 & -> & (g2' & Hk & ->) &
                  w1 & r3 & g3 & -> & Hw1 &
                  eq & r4 & g4 & -> & (-> & ->) &
                  w2 & r5 & g5 & -> & Hw2 &
                  v & r6 & g6 & -> & (g6' & Hv & Hg) &
                  (-> & He & Hm)).
  apply (star_cls_inv is_space) in Hi as [Hi ->].
  apply key_pattern_inv in Hk as [Hk ->].
  apply (star_cls_inv is_space) in Hw1 as [Hw1 ->].
  apply (star_cls_inv is_space) in Hw2 as [Hw2 ->].
  apply plus_any_inv in Hv as (Hne & Hv & ->).
  rewrite (group_groups 1 m None []), (group_groups 2 m None []),
          (group_groups 3 m None []), Hm.
  destruct (assignment_groups i k v g6 Hg) as (-> & -> & ->).
  exists w1, w2, f. simpl. rewrite app_nil_r, <- !app_assoc. simpl.
  rewrite <- !app_assoc. auto 10.
Qed.

(** Every line of that form is matched. *)
Lemma assignment_complete (line indent key value : list ascii) :
  assignment_of line indent key value ->
  truthy (re_match ASSIGNMENT_PATTERN line) = true.
Proof.
  intros (w1 & w2 & e & -> & Hi & Hk & Hw1 & Hw2 & Hne & Hv & He).
  apply re_match_iff.
  exists (indent ++ key ++ w1 ++ "="%char :: w2 ++ value), e,
         (<[3 := value]> (<[2 := key]> (<[1 := indent]> ∅))).
  split; [rewrite <- !app_assoc; simpl; rewrite <- !app_assoc; reflexivity|].
  unfold ASSIGNMENT_PATTERN. cbn [Seq Matches].
  exists [], (indent ++ key ++ w1 ++ "="%char :: w2 ++ value), ∅.
  split; [reflexivity|]. split; [auto|].
  exists indent, (key ++ w1 ++ "="%char :: w2 ++ value), (<[1 := indent]> ∅).
  split; [reflexivity|].
  split; [exists ∅; split; [now apply (star_cls_intro is_space)|reflexivity]|].
  exists key, (w1 ++ "="%char :: w2 ++ value),
         (<[2 := key]> (<[1 := indent]> ∅)).
  split; [reflexivity|].
  split; [eexists; split; [now apply key_pattern_intro|reflexivity]|].
  exists w1, ("="%char :: w2 ++ value), (<[2 := key]> (<[1 := indent]> ∅)).
  split; [reflexivity|].
  split; [now apply (star_cls_intro is_space)|].
  exists ["="%char], (w2 ++ value), (<[2 := key]> (<[1 := indent]> ∅)).
  split; [reflexivity|]. split; [split; reflexivity|].
  exists w2, value, (<[2 := key]> (<[1 := indent]> ∅)).
  split; [reflexivity|].
  split; [now apply (star_cls_intro is_space)|].
  exists value, [], (<[3 := value]> (<[2 := key]> (<[1 := indent]> ∅))).
  split; [now rewrite app_nil_r|].
  split; [eexists; split; [now apply plus_any_intro|reflexivity]|].
  auto.
Qed.

(** ** Characters of the patterns *)

Ltac by_cases_on_char c :=
  destruct c as [[] [] [] [] [] [] [] []]; vm_compute; intuition congruence.

Lemma alpha_us_facts (c : ascii) :
  set_alpha_us c = true ->
  is_space c = false /\ chr_eqb c "#" = false /\ chr_eqb c "=" = false /\
  chr_eqb c DQ = false.
Proof. by_cases_on_char c. Qed.

Lemma key_char_facts (c : ascii) :
  set_key_char c = true ->
  is_space c = false /\ chr_eqb c "=" = false /\ chr_eqb c DQ = false.
Proof. by_cases_on_char c. Qed.

(** ** Facts about the [str] methods *)

Lemma lstrip_spaces (w : list ascii) (c : ascii) (t : list ascii) :
  forallb is_space w = true -> is_space c = false ->
  PyStr.lstrip (w ++ c :: t) = c :: t.
Proof.
  intros Hw Hc. induction w as [|x w IH]; simpl in *.
  - unfold PyStr.lstrip. simpl. now rewrite Hc.
  - apply andb_true_iff in Hw as [Hx Hw]. unfold PyStr.lstrip in *.
    simpl. rewrite Hx. auto.
Qed.

Lemma startswith_char (s : list ascii) (c : ascii) :
  PyStr.startswith s [c] = true <-> exists t, s = c :: t.
Proof.
  destruct s as [|x s]; simpl.
  - split; [discriminate|intros [t H]; discriminate].
  - rewrite andb_true_r, chr_eqb_eq. split.
    + intros ->. eauto.
    + intros [t H]. congruence.
Qed.

Lemma endswith_char (s : list ascii) (c : ascii) :
  PyStr.endswith s [c] = true <-> exists t, s = t ++ [c].
Proof.
  unfold PyStr.endswith. change (rev [c]) with [c].
  rewrite startswith_char. split.
  - intros [t H]. exists (rev t).
    rewrite <- (rev_involutive s), H. reflexivity.
  - intros [t ->]. exists (rev t). now rewrite rev_app_distr.
Qed.

(** ** [float] and [is_sensitive_value] raise nothing that escapes *)

Lemma float_outcome (s : list ascii) :
  PyFloat.float s = Return tt \/ PyFloat.float s = Raise ValueError.
Proof.
  unfold PyFloat.float.
  destruct (PyFloat.without_underscores _); auto.
  destruct (PyFloat.float_from_string_inner _); auto.
Qed.

Lemma is_sensitive_value_returns (self : TOMLRedactor) (value : list ascii) :
  exists b, is_sensitive_value self value = Return b.
Proof.
  unfold is_sensitive_value.
  destruct (negb (check_values self)); [eauto|].
  destruct (_ || _); [eauto|].
  destruct (PyStr.in_tuple _ _); [eauto|].
  destruct (float_outcome (clean_value value)) as [-> | ->];
    cbn [bind try_except_ValueError]; [eauto|].
  destruct (existsb _ _); eauto.
Qed.

(** An assignment line is neither blank nor a comment. *)
Lemma assignment_first_char (line indent key value : list ascii) :
  assignment_of line indent key value ->
  exists c t, PyStr.lstrip line = c :: t /\ set_alpha_us c = true.
Proof.
  intros (w1 & w2 & e & -> & Hi & (c0 & run & segs & -> & Hc & _) & _).
  exists c0, ((run ++ segs) ++ w1 ++ "="%char :: w2 ++ value ++ e).
  split; [|exact Hc].
  apply lstrip_spaces; auto. now apply alpha_us_facts.
Qed.

(** [redact_line] on a line that [re.match] accepts. *)
Lemma redact_line_assignment (self : TOMLRedactor) (line : list ascii)
  (line_num : Z) (m : mstate) :
  re_match ASSIGNMENT_PATTERN line = Some m ->
  redact_line self line line_num =
    let* sensitive :=
      (if is_sensitive_key (group 2 m) then Return true
       else is_sensitive_value self (group 3 m)) in
    if (sensitive : bool) then
      Return (group 1 m ++ group 2 m ++ lit " = "
                ++ redacted_value self (group 3 m) ++ [NL],
              count_redaction self line_num)
    else Return (line, self).
Proof.
  intros H. unfold redact_line.
  destruct (assignment_first_char _ _ _ _ (assignment_sound _ _ H))
    as (c & t & -> & Hc).
  apply alpha_us_facts in Hc as (_ & Hc & _).
  cbn [PyFloat.is_nil PyStr.startswith lit list_ascii_of_string].
  replace (chr_eqb "#" c) with false
    by (unfold chr_eqb in *; now rewrite Ascii.eqb_sym).
  cbn [andb]. rewrite H. reflexivity.
Qed.

(** ** What the exclude patterns mean *)

Lemma startswith_iff (s p : list ascii) :
  PyStr.startswith s p = true <-> exists f, s = p ++ f.
Proof.
  revert s. induction p as [|x p IH]; intros s; simpl.
  - split; eauto.
  - destruct s as [|y s]; [split; [discriminate|intros [f H]; discriminate]|].
    rewrite andb_true_iff, chr_eqb_eq, IH. split.
    + intros [-> [f ->]]. eauto.
    + intros [f [= -> ->]]. eauto.
Qed.

Lemma endswith_iff (s p : list ascii) :
  PyStr.endswith s p = true <-> exists pre, s = pre ++ p.
Proof.
  unfold PyStr.endswith. rewrite startswith_iff. split.
  - intros [f H]. exists (rev f).
    rewrite <- (rev_involutive s), H, rev_app_distr, rev_involutive.
    reflexivity.
  - intros [pre ->]. exists (rev pre). apply rev_app_distr.
Qed.

Lemma after_Some_ne (u : list ascii) : forall c, after (Some c) u <> None.
Proof. induction u as [|x u IH]; intros c; simpl; [discriminate|apply IH]. Qed.

Lemma after_None (pre : list ascii) : after None pre = None -> pre = [].
Proof.
  destruct pre as [|c pre]; simpl; [reflexivity|].
  intros H. now apply after_Some_ne in H.
Qed.

(** A literal word matches itself and nothing else. *)
Lemma matches_word (cs : list ascii) : cs <> [] ->
  forall p u f g g',
    Matches (Seq (map Lit cs)) p u f g g' <-> u = cs /\ g' = g.
Proof.
  induction cs as [|c cs IH]; [congruence|]. intros _ p u f g g'.
  destruct cs as [|c2 cs]; [reflexivity|].
  assert (Hne : c2 :: cs <> []) by discriminate.
  change (Matches (Seq (map Lit (c :: c2 :: cs))) p u f g g')
    with (exists u1 u2 g1,
            u = u1 ++ u2 /\ (u1 = [c] /\ g1 = g) /\
            Matches (Seq (map Lit (c2 :: cs))) (after p u1) u2 f g1 g').
  split.
  - intros (u1 & u2 & g1 & -> & [-> ->] & H).
    apply (IH Hne) in H as [-> ->]. auto.
  - intros [-> ->]. exists [c], (c2 :: cs), g.
    split; [reflexivity|]. split; [auto|]. now apply (IH Hne).
Qed.

(** [^word] is found exactly in the texts that start with the word. *)
Lemma search_starts (w : string) (s : list ascii) :
  lit w <> [] ->
  truthy (re_search (starts w) s) = PyStr.startswith s (lit w).
Proof.
  intros Hw. apply eq_true_iff_eq.
  rewrite re_search_iff, startswith_iff. unfold starts, Word.
  split.
  - intros (pre & u & f & g' & -> & u1 & u2 & g1 & -> & (-> & Hp & ->) & H).
    apply after_None in Hp as ->.
    apply (matches_word _ Hw) in H as [-> _]. simpl. eauto.
  - intros [f ->]. exists [], (lit w), f, ∅.
    split; [reflexivity|]. exists [], (lit w), ∅.
    split; [reflexivity|]. split; [simpl; auto|].
    now apply (matches_word _ Hw).
Qed.

(** [word$] is found exactly in the texts that end with the word, or
    with the word and one newline. *)
Lemma search_ends (w : string) (s : list ascii) :
  lit w <> [] ->
  truthy (re_search (ends w) s) =
    PyStr.endswith s (lit w) || PyStr.endswith s (lit w ++ [NL]).
Proof.
  intros Hw. apply eq_true_iff_eq.
  rewrite re_search_iff, orb_true_iff, !endswith_iff. unfold ends, Word.
  split.
  - intros (pre & u & f & g' & -> & u1 & u2 & g1 & -> & H & (-> & Hf & _)).
    apply (matches_word _ Hw) in H as [-> _]. rewrite app_nil_r.
    destruct Hf as [-> | ->]; [left; exists pre; now rewrite app_nil_r|].
    right. now exists pre.
  - intros [[pre ->]|[pre ->]].
    + exists pre, (lit w), [], ∅. split; [now rewrite app_nil_r|].
      exists (lit w), [], ∅. split; [now rewrite app_nil_r|].
      split; [now apply (matches_word _ Hw)|]. simpl. auto.
    + exists pre, (lit w), [NL], ∅. split; [reflexivity|].
      exists (lit w), [], ∅. split; [now rewrite app_nil_r|].
      split; [now apply (matches_word _ Hw)|]. simpl. auto.
Qed.

(** X10. The exclude table read as text: a key is vetoed exactly when
    its cleaned form starts with one of the eight prefixes, or ends with
    one of the twelve suffixes, possibly followed by one newline. *)
Lemma exclude_patterns_meaning (s : list ascii) :
  existsb (fun pattern => truthy (re_search pattern s))
    CONFIG_EXCLUDE_PATTERNS =
  existsb (fun w => PyStr.startswith s (lit w)) EXCLUDED_PREFIXES ||
  existsb (fun w => PyStr.endswith s (lit w) ||
                    PyStr.endswith s (lit w ++ [NL])) EXCLUDED_SUFFIXES.
Proof.
  unfold CONFIG_EXCLUDE_PATTERNS, EXCLUDED_PREFIXES, EXCLUDED_SUFFIXES.
  cbn [existsb].
  rewrite !search_starts, !search_ends by discriminate.
  repeat rewrite orb_false_r.
  repeat match goal with
         | |- context [PyStr.startswith s ?p] =>
             let b := fresh "b" in
             generalize (PyStr.startswith s p); intros b
         | |- context [PyStr.endswith s ?p] =>
             let b := fresh "b" in
             generalize (PyStr.endswith s p); intros b
         end.
  apply eq_true_iff_eq. rewrite !orb_true_iff. tauto.
Qed.


(** * The properties of the specification *)

Lemma str_eqb_refl (s : list ascii) : PyStr.str_eqb s s = true.
Proof.
  induction s as [|c s IH]; simpl; auto.
  unfold chr_eqb. now rewrite Ascii.eqb_refl.
Qed.

(** ** Key classification *)

(** C1. A key that matches at least one exclude pattern, once its quote
    characters are removed and it is lower-cased, is never sensitive,
    whatever sensitive terms or token patterns it also matches. *)
Theorem exclude_pattern_vetoes (k : list ascii) :
  (exists pattern, In pattern CONFIG_EXCLUDE_PATTERNS /\
                   truthy (re_search pattern (key_clean k)) = true) ->
  is_sensitive_key k = false.
Proof.
  intros (pattern & Hin & Hm). unfold is_sensitive_key.
  destruct (existsb _ CONFIG_EXCLUDE_PATTERNS) eqn:E; [reflexivity|].
  assert (E' : existsb (fun pattern => truthy (re_search pattern (key_clean k)))
                 CONFIG_EXCLUDE_PATTERNS = true)
    by (apply existsb_exists; eauto).
  congruence.
Qed.

(** The key [max_password_length] contains the sensitive term [password]
    and is vetoed by the exclude pattern [^max_]. *)
Lemma exclude_pattern_vetoes_witness :
  existsb (fun term => PyStr.contains term (key_clean (lit "max_password_length")))
    SENSITIVE_PATTERNS = true /\
  is_sensitive_key (lit "max_password_length") = false.
Proof.
  split; [vm_compute; reflexivity|].
  apply (exclude_pattern_vetoes (lit "max_password_length")).
  exists (starts "max_"). split; [simpl; auto 20|vm_compute; reflexivity].
Defined.

(** C6. A key whose cleaned form contains a sensitive term and matches no
    exclude pattern is sensitive; [api_key] is sensitive, and
    [max_token_count], which matches the exclude pattern [^max_], is
    not. *)
Theorem sensitive_term_makes_key_sensitive :
  (forall k : list ascii,
     (exists term, In term SENSITIVE_PATTERNS /\
                   PyStr.contains term (key_clean k) = true) ->
     (forall pattern, In pattern CONFIG_EXCLUDE_PATTERNS ->
                      truthy (re_search pattern (key_clean k)) = false) ->
     is_sensitive_key k = true) /\
  is_sensitive_key (lit "api_key") = true /\
  truthy (re_search (starts "max_") (key_clean (lit "max_token_count"))) = true /\
  is_sensitive_key (lit "max_token_count") = false.
Proof.
  split; [|vm_compute; auto].
  intros k (term & Hin & Ht) Hex. unfold is_sensitive_key.
  destruct (existsb _ CONFIG_EXCLUDE_PATTERNS) eqn:E.
  - apply existsb_exists in E as (pattern & Hp & Hm).
    rewrite (Hex pattern Hp) in Hm. discriminate.
  - assert (E' : existsb (fun pattern => PyStr.contains pattern (key_clean k))
                   SENSITIVE_PATTERNS = true)
      by (apply existsb_exists; eauto).
    now rewrite E'.
Qed.

Lemma sensitive_term_makes_key_sensitive_witness :
  is_sensitive_key (lit "db.Password") = true.
Proof.
  apply (proj1 sensitive_term_makes_key_sensitive (lit "db.Password")).
  - exists (lit "password"). split; [simpl; auto|vm_compute; reflexivity].
  - intros pattern Hin. simpl in Hin.
    repeat (destruct Hin as [<-|Hin]; [vm_compute; reflexivity|]).
    destruct Hin.
Defined.

(** ** Value classification *)

(** C5. A value whose cleaned form starts with a dollar sign, or is
    [true] or [false] in any letter case, or is accepted by [float], is
    not sensitive, whether or not value checks are enabled. *)
Theorem exempt_values_not_sensitive (self : TOMLRedactor)
  (value : list ascii) :
  PyStr.startswith (clean_value value) (lit "$") = true \/
  PyStr.lower (clean_value value) = lit "true" \/
  PyStr.lower (clean_value value) = lit "false" \/
  PyFloat.float (clean_value value) = Return tt ->
  is_sensitive_value self value = Return false.
Proof.
  intros H. unfold is_sensitive_value.
  destruct (negb (check_values self)); [reflexivity|].
  destruct (PyStr.startswith (clean_value value) (lit "$")) eqn:Hd;
    [reflexivity|].
  destruct (PyStr.startswith (clean_value value) (lit "${")) eqn:Hb;
    [reflexivity|].
  cbn [orb].
  destruct (PyStr.in_tuple _ _) eqn:Ht; [reflexivity|].
  destruct H as [H|[H|[H|H]]].
  - discriminate.
  - rewrite H in Ht. vm_compute in Ht. discriminate.
  - rewrite H in Ht. vm_compute in Ht. discriminate.
  - rewrite H. reflexivity.
Qed.

(** Three values that a value pattern matches and that are exempt all the
    same, with value checks enabled: a variable reference around a
    JWT-shaped text, and a number of 32 digits; and the literal [True]. *)
Lemma exempt_values_not_sensitive_witness :
  check_values default_redactor = true /\
  existsb (fun pattern => truthy (re_search pattern (lit "$eyJhb.eyJzd.sig")))
    VALUE_PATTERNS = true /\
  is_sensitive_value default_redactor (lit "$eyJhb.eyJzd.sig") = Return false /\
  existsb (fun pattern =>
             truthy (re_search pattern (lit "12345678901234567890123456789012")))
    VALUE_PATTERNS = true /\
  is_sensitive_value default_redactor
    (lit "12345678901234567890123456789012") = Return false /\
  is_sensitive_value default_redactor (lit " 'True' ") = Return false.
Proof.
  split; [reflexivity|].
  split; [vm_compute; reflexivity|].
  split; [apply exempt_values_not_sensitive; left; vm_compute; reflexivity|].
  split; [vm_compute; reflexivity|].
  split.
  - apply exempt_values_not_sensitive.
    right; right; right; vm_compute; reflexivity.
  - apply exempt_values_not_sensitive. right; left; vm_compute; reflexivity.
Defined.

(** ** The line rewriter *)

Lemma comment_not_blank (line : list ascii) :
  PyStr.startswith (PyStr.lstrip line) (lit "#") = true ->
  PyFloat.is_nil (PyStr.lstrip line) = false.
Proof. destruct (PyStr.lstrip line); [discriminate|reflexivity]. Qed.

Lemma redact_line_comment (self : TOMLRedactor) (line : list ascii)
  (line_num : Z) :
  PyStr.startswith (PyStr.lstrip line) (lit "#") = true ->
  redact_line self line line_num =
    Return (if remove_comments self then [] else line, self).
Proof.
  intros H. unfold redact_line.
  rewrite (comment_not_blank line H), H.
  destruct (remove_comments self); [reflexivity|].
  destruct (preserve_commented self); reflexivity.
Qed.

(** C7. A line whose left-trimmed form starts with [#] is returned empty
    when comments are removed and unchanged otherwise, whatever
    [preserve_commented] says; the count and the set of modified lines
    stay as they were. *)
Theorem comment_line_dropped_or_kept (self : TOMLRedactor)
  (line : list ascii) (line_num : Z) :
  PyStr.startswith (PyStr.lstrip line) (lit "#") = true ->
  redact_line self line line_num =
    Return (if remove_comments self then [] else line, self).
Proof. apply redact_line_comment. Qed.

(** The comment [# password = hunter2] (the value in double quotes) under
    the four settings of the two flags. *)
Lemma comment_line_dropped_or_kept_witness :
  redact_line (init (lit "***REDACTED***") true true false)
    commented_password 7 =
    Return (commented_password, init (lit "***REDACTED***") true true false) /\
  redact_line (init (lit "***REDACTED***") true false false)
    commented_password 7 =
    Return (commented_password, init (lit "***REDACTED***") true false false) /\
  redact_line (init (lit "***REDACTED***") true true true)
    commented_password 7 =
    Return ([], init (lit "***REDACTED***") true true true) /\
  redact_line (init (lit "***REDACTED***") true false true)
    commented_password 7 =
    Return ([], init (lit "***REDACTED***") true false true).
Proof.
  assert (H : PyStr.startswith (PyStr.lstrip commented_password) (lit "#")
              = true) by (vm_compute; reflexivity).
  split; [|split; [|split]].
  - exact (comment_line_dropped_or_kept
             (init (lit "***REDACTED***") true true false) _ 7%Z H).
  - exact (comment_line_dropped_or_kept
             (init (lit "***REDACTED***") true false false) _ 7%Z H).
  - exact (comment_line_dropped_or_kept
             (init (lit "***REDACTED***") true true true) _ 7%Z H).
  - exact (comment_line_dropped_or_kept
             (init (lit "***REDACTED***") true false true) _ 7%Z H).
Defined.

(** C9. [redact_line] returns a line for every text and every line
    number: no exception leaves it. *)
Theorem redact_line_total (self : TOMLRedactor) (line : list ascii)
  (line_num : Z) :
  exists out self', redact_line self line line_num = Return (out, self').
Proof.
  unfold redact_line.
  destruct (PyFloat.is_nil _); [eauto|].
  destruct (PyStr.startswith _ _).
  { destruct (remove_comments self); [eauto|].
    destruct (preserve_commented self); eauto. }
  destruct (re_match ASSIGNMENT_PATTERN line) as [m|]; [|eauto].
  destruct (is_sensitive_key (group 2 m)); cbn [bind]; [eauto|].
  destruct (is_sensitive_value_returns self (group 3 m)) as [[] ->];
    cbn [bind]; eauto.
Qed.

(** C4. A line that is not redacted comes back as it is, with the object
    unchanged: a blank line; a comment when comments are kept; an
    assignment whose key and value are both not sensitive; and a line
    of none of these kinds, which the assignment pattern does not
    match. *)
Theorem unredacted_line_passes_through (self : TOMLRedactor)
  (line : list ascii) (line_num : Z) :
  PyStr.lstrip line = [] \/
  (PyStr.startswith (PyStr.lstrip line) (lit "#") = true /\
   remove_comments self = false) \/
  (exists m, re_match ASSIGNMENT_PATTERN line = Some m /\
             is_sensitive_key (group 2 m) = false /\
             is_sensitive_value self (group 3 m) = Return false) \/
  (PyStr.lstrip line <> [] /\
   PyStr.startswith (PyStr.lstrip line) (lit "#") = false /\
   re_match ASSIGNMENT_PATTERN line = None) ->
  redact_line self line line_num = Return (line, self).
Proof.
  intros [H|[[H Hr]|[(m & Hm & Hk & Hv)|(Hb & Hc & Hm)]]].
  - unfold redact_line. now rewrite H.
  - rewrite (redact_line_comment self line line_num H).
    now rewrite Hr.
  - rewrite (redact_line_assignment self line line_num m Hm).
    now rewrite Hk, Hv.
  - unfold redact_line. rewrite Hc, Hm.
    destruct (PyStr.lstrip line); [congruence|reflexivity].
Qed.

(** One line of each kind: white space only; a comment; the assignment
    [max_retry_count = 5]; a table header. *)
Lemma unredacted_line_passes_through_witness :
  redact_line default_redactor (lit "   " ++ [NL]) 1 =
    Return (lit "   " ++ [NL], default_redactor) /\
  redact_line default_redactor commented_password 2 =
    Return (commented_password, default_redactor) /\
  redact_line default_redactor (lit "max_retry_count = 5" ++ [NL]) 3 =
    Return (lit "max_retry_count = 5" ++ [NL], default_redactor) /\
  redact_line default_redactor (lit "[database.credentials]" ++ [NL]) 4 =
    Return (lit "[database.credentials]" ++ [NL], default_redactor).
Proof.
  split; [|split; [|split]]; apply unredacted_line_passes_through.
  - left. vm_compute. reflexivity.
  - right; left. split; vm_compute; reflexivity.
  - right; right; left.
    destruct (re_match ASSIGNMENT_PATTERN (lit "max_retry_count = 5" ++ [NL]))
      as [m|] eqn:E; [|vm_compute in E; discriminate].
    exists m. split; [reflexivity|].
    vm_compute in E. injection E as <-.
    split; vm_compute; reflexivity.
  - right; right; right.
    split; [vm_compute; discriminate|]. split; vm_compute; reflexivity.
Defined.

(** The three ways [redact_line] can end. *)
Lemma redact_line_inv (self : TOMLRedactor) (line : list ascii)
  (line_num : Z) (out : list ascii) (self' : TOMLRedactor) :
  redact_line self line line_num = Return (out, self') ->
  (out = line /\ self' = self) \/
  (out = [] /\ self' = self) \/
  (exists m,
     re_match ASSIGNMENT_PATTERN line = Some m /\
     (is_sensitive_key (group 2 m) = true \/
      is_sensitive_value self (group 3 m) = Return true) /\
     out = group 1 m ++ group 2 m ++ lit " = "
             ++ redacted_value self (group 3 m) ++ [NL] /\
     self' = count_redaction self line_num).
Proof.
  destruct (re_match ASSIGNMENT_PATTERN line) as [m|] eqn:Hm.
  - rewrite (redact_line_assignment self line line_num m Hm).
    destruct (is_sensitive_key (group 2 m)) eqn:Hk; cbn [bind].
    + intros [= <- <-]. right; right. exists m. auto.
    + destruct (is_sensitive_value_returns self (group 3 m)) as [[] Hv];
        rewrite Hv; cbn [bind]; intros [= <- <-]; auto.
      right; right. exists m. auto.
  - unfold redact_line. rewrite Hm.
    destruct (PyFloat.is_nil _); [intros [= <- <-]; auto|].
    destruct (PyStr.startswith _ _); [|intros [= <- <-]; auto].
    destruct (remove_comments self); [intros [= <- <-]; auto|].
    destruct (preserve_commented self); intros [= <- <-]; auto.
Qed.

Lemma redacted_value_cases (self : TOMLRedactor) (value : list ascii) :
  exists q, (q = DQ \/ q = SQ) /\
            redacted_value self value = [q] ++ redaction_text self ++ [q].
Proof.
  unfold redacted_value.
  destruct (_ && _); [exists DQ; auto|].
  destruct (_ && _); [exists SQ; auto|exists DQ; auto].
Qed.

(** C3. When an assignment is redacted, the placeholder is put in double
    quotes if the trimmed value starts and ends with a double quote, in
    single quotes if it starts and ends with a single quote, and in
    double quotes in every other case.  The three example lines of the
    specification are taken both without and with their line end; the
    line returned ends with a newline in both cases. *)
Theorem quote_style_preserved :
  (forall (self : TOMLRedactor) (line : list ascii) (line_num : Z)
          (m : mstate),
     re_match ASSIGNMENT_PATTERN line = Some m ->
     is_sensitive_key (group 2 m) = true \/
     is_sensitive_value self (group 3 m) = Return true ->
     exists q,
       redact_line self line line_num =
         Return (group 1 m ++ group 2 m ++ lit " = "
                   ++ ([q] ++ redaction_text self ++ [q]) ++ [NL],
                 count_redaction self line_num) /\
       ((exists t, PyStr.strip (group 3 m) = DQ :: t) /\
        (exists t, PyStr.strip (group 3 m) = t ++ [DQ]) -> q = DQ) /\
       ((exists t, PyStr.strip (group 3 m) = SQ :: t) /\
        (exists t, PyStr.strip (group 3 m) = t ++ [SQ]) -> q = SQ) /\
       (~ ((exists t, PyStr.strip (group 3 m) = DQ :: t) /\
           (exists t, PyStr.strip (group 3 m) = t ++ [DQ])) ->
        ~ ((exists t, PyStr.strip (group 3 m) = SQ :: t) /\
           (exists t, PyStr.strip (group 3 m) = t ++ [SQ])) -> q = DQ)) /\
  (forall e, e = [] \/ e = [NL] ->
     redact_line default_redactor
       (lit "token = " ++ [DQ] ++ lit "abc123" ++ [DQ] ++ e) 1 =
       Return (lit "token = " ++ [DQ] ++ lit "***REDACTED***" ++ [DQ; NL],
               count_redaction default_redactor 1) /\
     redact_line default_redactor (lit "token = 'abc123'" ++ e) 1 =
       Return (lit "token = '***REDACTED***'" ++ [NL],
               count_redaction default_redactor 1) /\
     redact_line default_redactor (lit "token = abc123" ++ e) 1 =
       Return (lit "token = " ++ [DQ] ++ lit "***REDACTED***" ++ [DQ; NL],
               count_redaction default_redactor 1)).
Proof.
  split.
  - intros self line line_num m Hm Hs.
    rewrite (redact_line_assignment self line line_num m Hm).
    assert (Hb : (if is_sensitive_key (group 2 m) then Return true
                  else is_sensitive_value self (group 3 m)) = Return true).
    { destruct Hs as [-> | Hv]; [reflexivity|].
      rewrite Hv. now destruct (is_sensitive_key _). }
    rewrite Hb. cbn [bind]. unfold redacted_value.
    destruct (_ && _) eqn:Hd.
    + exists DQ. split; [reflexivity|]. split; [reflexivity|].
      apply andb_true_iff in Hd as [H1 H2].
      apply startswith_char in H1 as [t1 H1]. split; [|reflexivity].
      intros [[t E] _]. rewrite H1 in E. discriminate.
    + destruct (PyStr.startswith _ [SQ] && _) eqn:Hq.
      * exists SQ. split; [reflexivity|]. split; [|split; [reflexivity|]].
        -- intros [H1 H2]. apply startswith_char in H1.
           apply endswith_char in H2. rewrite H1, H2 in Hd. discriminate.
        -- intros _ H. exfalso. apply H.
           apply andb_true_iff in Hq as [H1 H2].
           apply startswith_char in H1. apply endswith_char in H2. auto.
      * exists DQ. split; [reflexivity|]. split; [reflexivity|].
        split; [|reflexivity].
        intros [H1 H2]. apply startswith_char in H1.
        apply endswith_char in H2. rewrite H1, H2 in Hq. discriminate.
  - intros e [-> | ->]; vm_compute; auto.
Qed.

Lemma quote_style_preserved_witness :
  exists m,
    re_match ASSIGNMENT_PATTERN quoted_token_line = Some m /\
    group 3 m = lit "'abc123' " /\
    redact_line default_redactor quoted_token_line 5 =
      Return (lit "  auth_token = '***REDACTED***'" ++ [NL],
              count_redaction default_redactor 5).
Proof.
  destruct (re_match ASSIGNMENT_PATTERN quoted_token_line) as [m|] eqn:E;
    [|vm_compute in E; discriminate].
  exists m. split; [reflexivity|].
  assert (Hk : is_sensitive_key (group 2 m) = true)
    by (vm_compute in E; injection E as <-; vm_compute; reflexivity).
  assert (H3 : group 3 m = lit "'abc123' ")
    by (vm_compute in E; injection E as <-; vm_compute; reflexivity).
  assert (H12 : group 1 m ++ group 2 m = lit "  auth_token")
    by (vm_compute in E; injection E as <-; vm_compute; reflexivity).
  split; [exact H3|].
  destruct (proj1 quote_style_preserved default_redactor quoted_token_line
              5%Z m E (or_introl Hk)) as (q & -> & _ & Hq & _).
  rewrite (Hq ltac:(rewrite H3; split;
                    [exists (lit "abc123'")|exists (lit "'abc123")];
                    vm_compute; reflexivity)).
  rewrite app_assoc, H12. reflexivity.
Defined.

(** C10. Whenever [redact_line] redacts, the line it was given is an
    assignment with some indent, key and value, and the line it returns
    is the indent, the key, one space, the equals sign, one space, the
    placeholder between two equal quote characters, and a newline:
    whatever white space stood around the equals sign, and whether or
    not the line given ended with a newline. *)
Theorem redacted_line_format :
  (forall (self : TOMLRedactor) (line : list ascii) (line_num : Z)
          (out : list ascii) (self' : TOMLRedactor),
     redact_line self line line_num = Return (out, self') ->
     redacted_count self' <> redacted_count self ->
     exists indent key value q,
       assignment_of line indent key value /\
       (q = DQ \/ q = SQ) /\
       out = indent ++ key ++ lit " = "
               ++ ([q] ++ redaction_text self ++ [q]) ++ [NL] /\
       self' = count_redaction self line_num) /\
  redact_line default_redactor (lit "  password" ++ [ascii_of_nat 9]
                                  ++ lit "=hunter2") 9 =
    Return (lit "  password = " ++ [DQ] ++ lit "***REDACTED***" ++ [DQ; NL],
            count_redaction default_redactor 9).
Proof.
  split; [|vm_compute; reflexivity].
  intros self line line_num out self' H Hc.
  apply redact_line_inv in H as [[_ ->]|[[_ ->]|(m & Hm & _ & -> & ->)]];
    try congruence.
  destruct (redacted_value_cases self (group 3 m)) as (q & Hq & ->).
  exists (group 1 m), (group 2 m), (group 3 m), q.
  split; [now apply assignment_sound|auto].
Qed.

Lemma redacted_line_format_witness :
  exists indent key value q,
    assignment_of unterminated_secret_line indent key value /\
    (q = DQ \/ q = SQ) /\
    lit "client_secret = " ++ [DQ] ++ lit "***REDACTED***" ++ [DQ; NL] =
      indent ++ key ++ lit " = "
        ++ ([q] ++ redaction_text default_redactor ++ [q]) ++ [NL] /\
    count_redaction default_redactor 12 = count_redaction default_redactor 12.
Proof.
  apply (proj1 redacted_line_format default_redactor
           unterminated_secret_line 12%Z).
  - vm_compute. reflexivity.
  - vm_compute. discriminate.
Defined.

(** ** Cleaning of a value *)

Lemma drop_while_split (f : ascii -> bool) (s : list ascii) :
  exists l, s = l ++ PyStr.drop_while f s /\ forallb f l = true.
Proof.
  induction s as [|c s (l & IH & Hl)]; simpl.
  - exists []. auto.
  - destruct (f c) eqn:Hc.
    + exists (c :: l). simpl. rewrite Hc, Hl. split; [congruence|reflexivity].
    + exists []. auto.
Qed.

Lemma drop_while_head (f : ascii -> bool) (s : list ascii) (c : ascii)
  (t : list ascii) :
  PyStr.drop_while f s = c :: t -> f c = false.
Proof.
  induction s as [|x s IH]; simpl; [discriminate|].
  destruct (f x) eqn:Hx; [exact IH|]. intros [= -> _]. exact Hx.
Qed.

Lemma mem_quotes (c : ascii) : PyStr.mem_chr [DQ; SQ] c = set_quote c.
Proof. unfold PyStr.mem_chr, set_quote. simpl. now rewrite orb_false_r. Qed.

Lemma forallb_rev (f : ascii -> bool) (s : list ascii) :
  forallb f (rev s) = forallb f s.
Proof.
  induction s as [|c s IH]; simpl; auto.
  rewrite forallb_app, IH. simpl. rewrite andb_true_r. apply andb_comm.
Qed.

Lemma forallb_mem_quotes (s : list ascii) :
  forallb (PyStr.mem_chr [DQ; SQ]) s = forallb set_quote s.
Proof.
  induction s as [|c s IH]; [reflexivity|].
  cbn [forallb]. now rewrite IH, mem_quotes.
Qed.

(** The cleaned value is the trimmed value without the quote characters
    at its two ends, however many there are. *)
Lemma clean_value_split (value : list ascii) :
  exists l r,
    PyStr.strip value = l ++ clean_value value ++ r /\
    forallb (PyStr.mem_chr [DQ; SQ]) l = true /\
    forallb (PyStr.mem_chr [DQ; SQ]) r = true /\
    (forall c t, clean_value value = c :: t ->
                 PyStr.mem_chr [DQ; SQ] c = false) /\
    (forall c t, clean_value value = t ++ [c] ->
                 PyStr.mem_chr [DQ; SQ] c = false).
Proof.
  unfold clean_value, PyStr.strip_chars.
  set (f := PyStr.mem_chr [DQ; SQ]). set (s := PyStr.strip value).
  destruct (drop_while_split f s) as (l & Hs & Hl).
  set (d := PyStr.drop_while f s) in *.
  destruct (drop_while_split f (rev d)) as (r & Hd & Hr).
  set (x := PyStr.drop_while f (rev d)) in *.
  assert (Ed : d = rev x ++ rev r).
  { rewrite <- (rev_involutive d), Hd. apply rev_app_distr. }
  exists l, (rev r). repeat split.
  - rewrite <- Ed. exact Hs.
  - exact Hl.
  - now rewrite forallb_rev.
  - intros c t E. destruct d as [|c' d'] eqn:Dd.
    + subst x. simpl in E. discriminate.
    + rewrite E in Ed. simpl in Ed. injection Ed as -> _.
      apply (drop_while_head f s c d'). exact Dd.
  - intros c t E.
    assert (Ex : x = c :: rev t).
    { rewrite <- (rev_involutive x), E, rev_app_distr. reflexivity. }
    apply (drop_while_head f (rev d) c (rev t)). exact Ex.
Qed.

Lemma is_sensitive_value_clean (self : TOMLRedactor) (v v' : list ascii) :
  clean_value v = clean_value v' ->
  is_sensitive_value self v = is_sensitive_value self v'.
Proof. intros H. unfold is_sensitive_value. now rewrite H. Qed.

(** C8, as the specification words it (one layer of quotes is removed),
    fails: of the value [''x''], two single quotes on each side of [x],
    nothing but [x] is left, not [x] in one pair of quotes. *)
Lemma one_quote_layer_counterexample :
  PyStr.strip (lit "''x''") = lit "''x''" /\
  clean_value (lit "''x''") = lit "x" /\
  clean_value (lit "''x''") <> lit "'x'".
Proof. vm_compute. repeat split; discriminate. Qed.

(** C8, amended. Cleaning trims the white space around the value and
    then removes every quote character, single or double, at the two
    ends of what is left: the cleaned value neither starts nor ends with
    a quote.  The checks of [is_sensitive_value] see the value through
    its cleaned form only.  Of [''x''] the cleaned form is [x]. *)
Theorem clean_value_strips_all_quotes :
  (forall value : list ascii,
     exists l r,
       PyStr.strip value = l ++ clean_value value ++ r /\
       forallb set_quote l = true /\ forallb set_quote r = true /\
       (forall c t, clean_value value = c :: t -> set_quote c = false) /\
       (forall c t, clean_value value = t ++ [c] -> set_quote c = false)) /\
  (forall (self : TOMLRedactor) (v v' : list ascii),
     clean_value v = clean_value v' ->
     is_sensitive_value self v = is_sensitive_value self v') /\
  clean_value (lit " ''x'' ") = lit "x".
Proof.
  split; [|split; [|vm_compute; reflexivity]].
  - intros value.
    destruct (clean_value_split value) as (l & r & E & Hl & Hr & H1 & H2).
    exists l, r. split; [exact E|].
    rewrite forallb_mem_quotes in Hl, Hr.
    repeat split; auto.
    + intros c t Hc. rewrite <- mem_quotes. eauto.
    + intros c t Hc. rewrite <- mem_quotes. eauto.
  - apply is_sensitive_value_clean.
Qed.

(** A JWT-shaped text inside a double and a single pair of quotes is
    classified as the bare text is. *)
Lemma clean_value_strips_all_quotes_witness :
  clean_value doubly_quoted_jwt = lit "eyJhbGci.eyJzdWIi.c2ln" /\
  is_sensitive_value default_redactor doubly_quoted_jwt =
    is_sensitive_value default_redactor (lit "eyJhbGci.eyJzdWIi.c2ln") /\
  is_sensitive_value default_redactor doubly_quoted_jwt = Return true.
Proof.
  split; [vm_compute; reflexivity|]. split; [|vm_compute; reflexivity].
  apply (proj1 (proj2 clean_value_strips_all_quotes)).
  vm_compute. reflexivity.
Defined.

(** ** A second pass over the output *)

Lemma key_scan_run (run x : list ascii) :
  forallb set_key_char run = true ->
  key_scan false (run ++ x) = run ++ key_scan false x.
Proof.
  induction run as [|c run IH]; intros H; simpl in *; [reflexivity|].
  apply andb_true_iff in H as [Hc H].
  apply key_char_facts in Hc as (-> & -> & ->). simpl. now rewrite IH.
Qed.

Lemma key_scan_body (body x : list ascii) :
  forallb set_not_dq body = true ->
  key_scan true (body ++ DQ :: x) = body ++ DQ :: key_scan false x.
Proof.
  induction body as [|c body IH]; intros H; simpl in *; [reflexivity|].
  apply andb_true_iff in H as [Hc H]. unfold set_not_dq in Hc.
  rewrite Hc, IH by exact H. reflexivity.
Qed.

Lemma key_scan_segments (segs : list ascii) :
  quoted_segments segs ->
  forall x, key_scan false (segs ++ x) = segs ++ key_scan false x.
Proof.
  induction 1 as [|body rest Hb _ IH]; intros x; [reflexivity|].
  change (key_scan false (("."%char :: DQ :: body ++ DQ :: rest) ++ x))
    with ("."%char :: DQ :: key_scan true ((body ++ DQ :: rest) ++ x)).
  rewrite <- app_assoc. simpl. rewrite key_scan_body by exact Hb.
  rewrite IH, <- app_assoc. reflexivity.
Qed.

Lemma key_scan_key (k : list ascii) (c : ascii) (t : list ascii) :
  key_shape k -> is_space c || chr_eqb c "=" = true ->
  key_scan false (k ++ c :: t) = k.
Proof.
  intros (c0 & run & segs & -> & Hc0 & Hrun & Hsegs) Hc.
  apply alpha_us_facts in Hc0 as (H1 & _ & H2 & H3).
  simpl. rewrite H1, H2, H3. simpl. f_equal.
  rewrite <- app_assoc, key_scan_run, key_scan_segments by assumption.
  simpl. rewrite Hc, app_nil_r. reflexivity.
Qed.

(** Two keys at the head of one text, each followed by white space or an
    equals sign, are the same key. *)
Lemma key_unique (k k' : list ascii) (c c' : ascii) (t t' : list ascii) :
  key_shape k -> key_shape k' ->
  is_space c || chr_eqb c "=" = true ->
  is_space c' || chr_eqb c' "=" = true ->
  k ++ c :: t = k' ++ c' :: t' ->
  k = k' /\ c :: t = c' :: t'.
Proof.
  intros Hk Hk' Hc Hc' E.
  assert (Ek : k = k').
  { rewrite <- (key_scan_key k c t Hk Hc), E. now apply key_scan_key. }
  subst k'. split; [reflexivity|]. now apply app_inv_head in E.
Qed.

Lemma rstrip_last (s : list ascii) (c : ascii) :
  is_space c = false -> PyStr.rstrip (s ++ [c]) = s ++ [c].
Proof.
  intros Hc. unfold PyStr.rstrip. rewrite rev_app_distr. simpl.
  rewrite Hc. simpl. now rewrite rev_involutive.
Qed.

Lemma strip_quoted (w : list ascii) (q : ascii) (r : list ascii) :
  forallb is_space w = true -> is_space q = false ->
  PyStr.strip (w ++ q :: r ++ [q]) = q :: r ++ [q].
Proof.
  intros Hw Hq. unfold PyStr.strip. rewrite lstrip_spaces by assumption.
  apply (rstrip_last (q :: r) q Hq).
Qed.

Lemma quote_not_space (q : ascii) : q = DQ \/ q = SQ -> is_space q = false.
Proof. intros [-> | ->]; reflexivity. Qed.

Lemma not_nl_last (s : list ascii) :
  forallb not_nl (s ++ [NL]) = false.
Proof.
  rewrite forallb_app. simpl. apply andb_false_r.
Qed.

Lemma forallb_middle (f : ascii -> bool) (a s b : list ascii) :
  forallb f (a ++ s ++ b) = true -> forallb f s = true.
Proof.
  rewrite !forallb_app. intros H.
  apply andb_true_iff in H as [_ H]. now apply andb_true_iff in H as [H _].
Qed.

(** What the value group can be when a redacted line is matched again. *)
Lemma value_of_redacted_line (w2 v e text : list ascii) (q : ascii) :
  q = DQ \/ q = SQ ->
  forallb is_space w2 = true -> v <> [] -> forallb not_nl v = true ->
  e = [] \/ e = [NL] ->
  " "%char :: q :: (text ++ [q]) ++ [NL] = w2 ++ v ++ e ->
  PyStr.strip v = q :: text ++ [q] /\ forallb not_nl text = true.
Proof.
  intros Hq Hw2 Hne Hv He E.
  assert (Hsp : is_space q = false) by now apply quote_not_space.
  destruct He as [-> | ->].
  - exfalso. rewrite app_nil_r in E.
    destruct (exists_last Hne) as (v' & x & ->).
    change (" "%char :: q :: (text ++ [q]) ++ [NL])
      with ((" "%char :: q :: text ++ [q]) ++ [NL]) in E.
    rewrite app_assoc in E. apply app_inj_tail in E as [_ <-].
    rewrite not_nl_last in Hv. discriminate.
  - change (" "%char :: q :: (text ++ [q]) ++ [NL])
      with ((" "%char :: q :: text ++ [q]) ++ [NL]) in E.
    rewrite app_assoc in E. apply app_inj_tail in E as [E _].
    assert (Ev : v = " "%char :: q :: text ++ [q] \/ v = q :: text ++ [q]).
    { destruct w2 as [|x w2]; simpl in E; [auto|].
      injection E as <- E.
      destruct w2 as [|y w2]; simpl in E; [auto|].
      injection E as <- E. simpl in Hw2. rewrite Hsp in Hw2.
      simpl in Hw2. discriminate. }
    split.
    + destruct Ev as [-> | ->].
      * apply (strip_quoted [" "%char] q text); auto.
      * apply (strip_quoted [] q text); auto.
    + destruct Ev as [-> | ->].
      * now apply (forallb_middle not_nl [" "%char; q] text [q]).
      * now apply (forallb_middle not_nl [q] text [q]).
Qed.

(** A redacted line that is matched again gives back its indent and its
    key, and a value that trims to the quoted placeholder. *)
Lemma rematch_redacted_line (indent key text : list ascii) (q : ascii)
  (m : mstate) :
  forallb is_space indent = true -> key_shape key -> q = DQ \/ q = SQ ->
  re_match ASSIGNMENT_PATTERN (redacted_line indent key q text) = Some m ->
  group 1 m = indent /\ group 2 m = key /\
  PyStr.strip (group 3 m) = q :: text ++ [q] /\
  forallb not_nl text = true.
Proof.
  intros Hi Hk Hq Hm.
  apply assignment_sound in Hm
    as (w1 & w2 & e & E & Hi' & Hk' & Hw1 & Hw2 & Hne & Hv & He).
  set (i' := group 1 m) in *. set (k' := group 2 m) in *.
  set (v := group 3 m) in *. unfold redacted_line in E.
  (* the indents *)
  assert (E1 : key ++ lit " = " ++ ([q] ++ text ++ [q]) ++ [NL] =
               k' ++ w1 ++ "="%char :: w2 ++ v ++ e /\ indent = i').
  { pose proof Hk as (c0 & run & segs & Ek & Hc0 & _).
    pose proof Hk' as (c0' & run' & segs' & Ek' & Hc0' & _).
    apply alpha_us_facts in Hc0 as (Hc0 & _).
    apply alpha_us_facts in Hc0' as (Hc0' & _).
    assert (El := f_equal PyStr.lstrip E).
    rewrite Ek in El at 1. rewrite Ek' in El at 1. simpl in El.
    rewrite !lstrip_spaces in El by assumption.
    rewrite Ek at 1. rewrite Ek' at 1. simpl. split; [exact El|].
    rewrite Ek in E at 1. rewrite Ek' in E at 1. simpl in E.
    rewrite El in E. now apply app_inv_tail in E. }
  destruct E1 as [E1 <-].
  (* the keys *)
  assert (E2 : lit " = " ++ ([q] ++ text ++ [q]) ++ [NL] =
               w1 ++ "="%char :: w2 ++ v ++ e /\ key = k').
  { destruct w1 as [|x w1].
    - destruct (key_unique key k' " " "=" _ _ Hk Hk' eq_refl eq_refl E1)
        as [-> E2]. auto.
    - simpl in Hw1. apply andb_true_iff in Hw1 as [Hx Hw1].
      destruct (key_unique key k' " " x _ _ Hk Hk' eq_refl
                  ltac:(now rewrite Hx) E1) as [-> E2]. auto. }
  destruct E2 as [E2 <-].
  split; [reflexivity|]. split; [reflexivity|].
  (* the value *)
  apply (value_of_redacted_line w2 v e text q); auto.
  destruct w1 as [|x w1]; [discriminate|].
  simpl in E2. injection E2 as <- E2.
  destruct w1 as [|y w1]; simpl in E2.
  - now injection E2.
  - injection E2 as <- _. simpl in Hw1. discriminate.
Qed.

Lemma is_sensitive_value_config (a b : TOMLRedactor) (v : list ascii) :
  check_values a = check_values b ->
  is_sensitive_value a v = is_sensitive_value b v.
Proof. intros H. unfold is_sensitive_value. now rewrite H. Qed.

Lemma redacted_value_config (a b : TOMLRedactor) (v : list ascii) :
  redaction_text a = redaction_text b ->
  redacted_value a v = redacted_value b v.
Proof. intros H. unfold redacted_value. now rewrite H. Qed.

(** The text that [redact_line] returns depends on the configuration and
    the line only. *)
Lemma redact_line_same_config (a b : TOMLRedactor) (line : list ascii)
  (n n' : Z) (out : list ascii) (a' : TOMLRedactor) :
  same_config a b ->
  redact_line a line n = Return (out, a') ->
  exists b', redact_line b line n' = Return (out, b').
Proof.
  intros (Ht & Hv & Hp & Hr).
  destruct (re_match ASSIGNMENT_PATTERN line) as [m|] eqn:Hm.
  - rewrite !(redact_line_assignment _ line _ m Hm).
    rewrite <- (is_sensitive_value_config a b _ Hv).
    rewrite <- (redacted_value_config a b _ Ht).
    destruct (if is_sensitive_key (group 2 m) then _ else _) as [[]|];
      cbn [bind]; intros [= <- <-]; eauto.
  - unfold redact_line. rewrite Hm, <- Hr, <- Hp.
    destruct (PyFloat.is_nil _); [intros [= <- <-]; eauto|].
    destruct (PyStr.startswith _ _); [|intros [= <- <-]; eauto].
    destruct (remove_comments a); [intros [= <- <-]; eauto|].
    destruct (preserve_commented a); intros [= <- <-]; eauto.
Qed.

Lemma redact_line_unmatched (self : TOMLRedactor) (line : list ascii)
  (n : Z) (c : ascii) (t : list ascii) :
  PyStr.lstrip line = c :: t -> chr_eqb c "#" = false ->
  re_match ASSIGNMENT_PATTERN line = None ->
  redact_line self line n = Return (line, self).
Proof.
  intros Hl Hc Hm. unfold redact_line. rewrite Hl, Hm.
  cbn [PyFloat.is_nil PyStr.startswith lit list_ascii_of_string].
  replace (chr_eqb "#" c) with false
    by (unfold chr_eqb in *; now rewrite Ascii.eqb_sym).
  reflexivity.
Qed.

Lemma redacted_value_of_quoted (self : TOMLRedactor) (v text : list ascii)
  (q : ascii) :
  q = DQ \/ q = SQ -> PyStr.strip v = q :: text ++ [q] ->
  redacted_value self v = [q] ++ redaction_text self ++ [q].
Proof.
  intros Hq Hv. unfold redacted_value. rewrite Hv.
  assert (He : PyStr.endswith (q :: text ++ [q]) [q] = true)
    by (apply endswith_char; exists (q :: text); reflexivity).
  destruct Hq as [-> | ->].
  - rewrite He. reflexivity.
  - rewrite He. reflexivity.
Qed.

Lemma redacted_line_assignment (indent key text : list ascii) (q : ascii) :
  forallb is_space indent = true -> key_shape key -> q = DQ \/ q = SQ ->
  forallb not_nl text = true ->
  assignment_of (redacted_line indent key q text) indent key
    ([q] ++ text ++ [q]).
Proof.
  intros Hi Hk Hq Ht. exists [" "%char], [" "%char], [NL].
  split; [reflexivity|]. split; [exact Hi|]. split; [exact Hk|].
  split; [reflexivity|]. split; [reflexivity|]. split; [discriminate|].
  split; [|auto].
  rewrite !forallb_app, Ht. destruct Hq as [-> | ->]; reflexivity.
Qed.

(** [redact_line] on a line that a redaction returned: the text stays,
    and the line is counted again when the placeholder has no newline
    and the key or the quoted placeholder is sensitive. *)
Lemma redact_line_redacted_line (self : TOMLRedactor)
  (indent key : list ascii) (q : ascii) (n : Z) :
  forallb is_space indent = true -> key_shape key -> q = DQ \/ q = SQ ->
  redact_line self (redacted_line indent key q (redaction_text self)) n =
    Return (redacted_line indent key q (redaction_text self),
            if forallb not_nl (redaction_text self) &&
               (is_sensitive_key key ||
                returns_true (is_sensitive_value self
                                ([q] ++ redaction_text self ++ [q])))
            then count_redaction self n else self).
Proof.
  intros Hi Hk Hq.
  set (text := redaction_text self). set (out := redacted_line indent key q text).
  destruct (re_match ASSIGNMENT_PATTERN out) as [m|] eqn:Hm.
  - destruct (rematch_redacted_line indent key text q m Hi Hk Hq Hm)
      as (G1 & G2 & G3 & Hnl).
    rewrite (redact_line_assignment self out n m Hm), G1, G2, Hnl.
    rewrite (redacted_value_of_quoted self (group 3 m) text q Hq G3).
    rewrite (is_sensitive_value_clean self (group 3 m) ([q] ++ text ++ [q])).
    + fold text. fold (redacted_line indent key q text). fold out.
      cbn [andb].
      destruct (is_sensitive_key key); cbn [bind orb]; [reflexivity|].
      destruct (is_sensitive_value_returns self ([q] ++ text ++ [q]))
        as [[] ->]; reflexivity.
    + unfold clean_value. rewrite G3. f_equal. symmetry.
      exact (strip_quoted [] q text eq_refl (quote_not_space q Hq)).
  - assert (Hnl : forallb not_nl text = false).
    { destruct (forallb not_nl text) eqn:Hnl; [|reflexivity].
      pose proof (assignment_complete _ _ _ _
        (redacted_line_assignment indent key text q Hi Hk Hq Hnl)) as Hc.
      fold out in Hc. rewrite Hm in Hc. discriminate. }
    rewrite Hnl. cbn [andb].
    destruct Hk as (c0 & run & segs & -> & Hc0 & _).
    apply alpha_us_facts in Hc0 as (Hs & Hc & _).
    apply (redact_line_unmatched self out n c0
             ((run ++ segs) ++ lit " = " ++ ([q] ++ text ++ [q]) ++ [NL]));
      auto.
    unfold out, redacted_line. simpl. now apply lstrip_spaces.
Qed.

(** C2, as the specification words it (a second pass performs zero
    redactions), fails: a new engine with the default configuration, run
    on the line that the first pass returned for a password assignment,
    redacts that line again; its count is one, not zero. *)
Lemma second_pass_counts_again_counterexample :
  redact_line default_redactor password_line 1 =
    Return (redacted_password_line, count_redaction default_redactor 1) /\
  redacted_count default_redactor = 0%Z /\
  redact_line default_redactor redacted_password_line 1 =
    Return (redacted_password_line, count_redaction default_redactor 1) /\
  redacted_count (count_redaction default_redactor 1) = 1%Z.
Proof. vm_compute. repeat split; reflexivity. Qed.

(** C2, amended. The text is what a second pass leaves alone: for every
    line, an engine of the same configuration run on the line that the
    first pass returned returns that line unchanged.  The count is not
    left alone: a line that the first pass redacted is redacted and
    counted again exactly when the placeholder has no newline and the
    key, or the placeholder in its quotes, is sensitive; in every other
    case the second pass performs no redaction on it. *)
Theorem second_pass_keeps_text :
  (forall (self : TOMLRedactor) (line : list ascii) (n : Z)
          (out : list ascii) (self1 : TOMLRedactor),
     redact_line self line n = Return (out, self1) ->
     forall (self2 : TOMLRedactor) (n2 : Z),
       same_config self self2 ->
       exists self3, redact_line self2 out n2 = Return (out, self3)) /\
  (forall (self : TOMLRedactor) (line : list ascii) (n : Z)
          (out : list ascii) (self1 : TOMLRedactor),
     redact_line self line n = Return (out, self1) ->
     redacted_count self1 <> redacted_count self ->
     exists indent key value q,
       assignment_of line indent key value /\
       out = redacted_line indent key q (redaction_text self) /\
       forall (self2 : TOMLRedactor) (n2 : Z),
         same_config self self2 ->
         redact_line self2 out n2 =
           Return (out,
                   if forallb not_nl (redaction_text self) &&
                      (is_sensitive_key key ||
                       returns_true
                         (is_sensitive_value self
                            ([q] ++ redaction_text self ++ [q])))
                   then count_redaction self2 n2 else self2)).
Proof.
  split.
  - intros self line n out self1 H self2 n2 Hc.
    pose proof H as H'.
    apply redact_line_inv in H' as [[-> _]|[[-> _]|(m & Hm & _ & -> & _)]].
    + now apply (redact_line_same_config self self2 line n n2 line self1).
    + exists self2. reflexivity.
    + destruct (redacted_value_cases self (group 3 m)) as (q & Hq & ->).
      destruct (assignment_sound line m Hm)
        as (w1 & w2 & e & _ & Hi & Hk & _).
      destruct Hc as (Ht & _). rewrite Ht.
      eexists.
      apply (redact_line_redacted_line self2 (group 1 m) (group 2 m) q n2);
        auto.
  - intros self line n out self1 H Hcount.
    apply redact_line_inv in H as [[_ ->]|[[_ ->]|(m & Hm & _ & -> & _)]];
      try congruence.
    destruct (redacted_value_cases self (group 3 m)) as (q & Hq & ->).
    pose proof (assignment_sound line m Hm) as Ha.
    exists (group 1 m), (group 2 m), (group 3 m), q.
    split; [exact Ha|]. split; [reflexivity|].
    intros self2 n2 (Ht & Hv & _).
    destruct Ha as (w1 & w2 & e & _ & Hi & Hk & _).
    rewrite (is_sensitive_value_config self self2 _ Hv), Ht.
    now apply redact_line_redacted_line.
Qed.

(** The password line again: its key is sensitive and the default
    placeholder has no newline, so the second pass counts it again and
    returns the same text. *)
Lemma second_pass_keeps_text_witness :
  (exists self3,
     redact_line default_redactor redacted_password_line 2 =
       Return (redacted_password_line, self3)) /\
  (exists indent key value q,
     assignment_of password_line indent key value /\
     redacted_password_line =
       redacted_line indent key q (redaction_text default_redactor) /\
     forall (self2 : TOMLRedactor) (n2 : Z),
       same_config default_redactor self2 ->
       redact_line self2 redacted_password_line n2 =
         Return (redacted_password_line,
                 if forallb not_nl (redaction_text default_redactor) &&
                    (is_sensitive_key key ||
                     returns_true
                       (is_sensitive_value default_redactor
                          ([q] ++ redaction_text default_redactor ++ [q])))
                 then count_redaction self2 n2 else self2)).
Proof.
  assert (H : redact_line default_redactor password_line 1 =
              Return (redacted_password_line,
                      count_redaction default_redactor 1))
    by (vm_compute; reflexivity).
  split.
  - apply (proj1 second_pass_keeps_text default_redactor password_line 1%Z
             redacted_password_line (count_redaction default_redactor 1) H
             default_redactor 2%Z).
    repeat split.
  - apply (proj2 second_pass_keeps_text default_redactor password_line 1%Z
             redacted_password_line (count_redaction default_redactor 1) H).
    vm_compute. discriminate.
Defined.

(** * Further properties of the code *)

(** ** Lines that are never redacted *)

(** X1. The attribute [preserve_commented] has no effect on
    [redact_line]: with either value the same line is returned and the
    same updates are made. *)
Theorem preserve_commented_is_ignored (b : bool) (self : TOMLRedactor)
  (line : list ascii) (line_num : Z) :
  redact_line (with_preserve_commented b self) line line_num =
    map_self (with_preserve_commented b) (redact_line self line line_num).
Proof.
  unfold redact_line.
  destruct (PyFloat.is_nil _); [reflexivity|].
  destruct (PyStr.startswith _ _).
  { cbn [remove_comments with_preserve_commented preserve_commented].
    destruct (remove_comments self); [reflexivity|].
    destruct b, (preserve_commented self); reflexivity. }
  destruct (re_match ASSIGNMENT_PATTERN line) as [m|]; [|reflexivity].
  rewrite (is_sensitive_value_config (with_preserve_commented b self) self)
    by reflexivity.
  rewrite (redacted_value_config (with_preserve_commented b self) self)
    by reflexivity.
  destruct (is_sensitive_key (group 2 m)); cbn [bind]; [reflexivity|].
  destruct (is_sensitive_value_returns self (group 3 m)) as [[] ->];
    reflexivity.
Qed.

Lemma not_key_start_unmatched (line : list ascii) (c : ascii)
  (t : list ascii) :
  PyStr.lstrip line = c :: t -> set_alpha_us c = false ->
  re_match ASSIGNMENT_PATTERN line = None.
Proof.
  intros Hl Hc.
  destruct (re_match ASSIGNMENT_PATTERN line) as [m|] eqn:Hm; [|reflexivity].
  destruct (assignment_first_char _ _ _ _ (assignment_sound _ _ Hm))
    as (c' & t' & Hl' & Hc').
  rewrite Hl in Hl'. injection Hl' as <- _. congruence.
Qed.

(** X2. A line whose first character after the leading white space is
    neither a letter nor an underscore is never redacted, whatever it
    holds: it is returned unchanged (or empty, when it is a comment and
    comments are removed), and nothing is counted.  That is so for table
    headers and array items, and also for a key written in quotes from
    its first character. *)
Theorem no_key_start_no_redaction (self : TOMLRedactor)
  (line : list ascii) (line_num : Z) (c : ascii) (t : list ascii) :
  PyStr.lstrip line = c :: t -> set_alpha_us c = false ->
  redact_line self line line_num =
    Return (if chr_eqb c "#" && remove_comments self then [] else line,
            self).
Proof.
  intros Hl Hc. destruct (chr_eqb c "#") eqn:Hh.
  - apply chr_eqb_eq in Hh as ->.
    rewrite (redact_line_comment self line line_num)
      by (rewrite Hl; reflexivity).
    reflexivity.
  - apply (redact_line_unmatched self line line_num c t Hl Hh).
    now apply (not_key_start_unmatched line c t).
Qed.

(** The password under a quoted key stays in the output. *)
Lemma no_key_start_no_redaction_witness :
  is_sensitive_key ([DQ] ++ lit "password" ++ [DQ]) = true /\
  redact_line default_redactor quoted_key_line 1 =
    Return (quoted_key_line, default_redactor).
Proof.
  split; [vm_compute; reflexivity|].
  exact (no_key_start_no_redaction default_redactor quoted_key_line 1%Z DQ
           (lit "password" ++ [DQ] ++ lit " = " ++ [DQ] ++ lit "hunter2"
              ++ [DQ; NL]) eq_refl eq_refl).
Defined.

(** Two readings of the head of one text as indent, key and what ends
    the key are the same reading. *)
Lemma assignment_heads_unique (i i' k k' : list ascii) (c c' : ascii)
  (t t' : list ascii) :
  forallb is_space i = true -> forallb is_space i' = true ->
  key_shape k -> key_shape k' ->
  is_space c || chr_eqb c "=" = true ->
  is_space c' || chr_eqb c' "=" = true ->
  i ++ k ++ c :: t = i' ++ k' ++ c' :: t' ->
  i = i' /\ k = k' /\ c :: t = c' :: t'.
Proof.
  intros Hi Hi' Hk Hk' Hc Hc' E.
  assert (E1 : k ++ c :: t = k' ++ c' :: t' /\ i = i').
  { pose proof Hk as (c0 & run & segs & Ek & Hc0 & _).
    pose proof Hk' as (c0' & run' & segs' & Ek' & Hc0' & _).
    apply alpha_us_facts in Hc0 as (Hc0 & _).
    apply alpha_us_facts in Hc0' as (Hc0' & _).
    assert (El := f_equal PyStr.lstrip E).
    rewrite Ek in El at 1. rewrite Ek' in El at 1. simpl in El.
    rewrite !lstrip_spaces in El by assumption.
    rewrite Ek at 1. rewrite Ek' at 1. simpl. split; [exact El|].
    rewrite Ek in E at 1. rewrite Ek' in E at 1. simpl in E.
    rewrite El in E. now apply app_inv_tail in E. }
  destruct E1 as [E1 <-].
  destruct (key_unique k k' c c' t t' Hk Hk' Hc Hc' E1) as [<- E2]. auto.
Qed.

Lemma spaces_before_equals (w w' x y : list ascii) :
  forallb is_space w = true -> forallb is_space w' = true ->
  w ++ "="%char :: x = w' ++ "="%char :: y -> w = w' /\ x = y.
Proof.
  revert w'. induction w as [|a w IH]; intros [|a' w'] Hw Hw' E;
    simpl in *.
  - injection E as ->. auto.
  - injection E as <- _. discriminate.
  - injection E as -> _. discriminate.
  - injection E as <- E.
    apply andb_true_iff in Hw as [_ Hw].
    apply andb_true_iff in Hw' as [_ Hw'].
    destruct (IH w' Hw Hw' E) as [-> ->]. auto.
Qed.

Lemma stop_after_key (w : list ascii) (x : list ascii) :
  forallb is_space w = true ->
  exists c t, w ++ "="%char :: x = c :: t /\
              is_space c || chr_eqb c "=" = true.
Proof.
  intros Hw. destruct w as [|a w]; simpl in *.
  - exists "="%char, x. auto.
  - apply andb_true_iff in Hw as [Ha _]. exists a, (w ++ "="%char :: x).
    now rewrite Ha.
Qed.

(** X3. An assignment with nothing after the equals sign (at most the
    newline) is returned unchanged and not counted, however sensitive
    its key: there is no value to replace. *)
Theorem empty_value_no_redaction (self : TOMLRedactor)
  (indent key w e : list ascii) (line_num : Z) :
  forallb is_space indent = true -> key_shape key ->
  forallb is_space w = true -> e = [] \/ e = [NL] ->
  redact_line self (indent ++ key ++ w ++ "="%char :: e) line_num =
    Return (indent ++ key ++ w ++ "="%char :: e, self).
Proof.
  intros Hi Hk Hw He.
  set (line := indent ++ key ++ w ++ "="%char :: e).
  assert (Hm : re_match ASSIGNMENT_PATTERN line = None).
  { destruct (re_match ASSIGNMENT_PATTERN line) as [m|] eqn:Hm;
      [exfalso|reflexivity].
    apply assignment_sound in Hm
      as (w1 & w2 & e' & E & Hi' & Hk' & Hw1 & Hw2 & Hne & Hv & He').
    unfold line in E.
    destruct (stop_after_key w e Hw) as (c & t & Ec & Hc).
    destruct (stop_after_key w1 (w2 ++ group 3 m ++ e') Hw1)
      as (c' & t' & Ec' & Hc').
    rewrite Ec, Ec' in E.
    destruct (assignment_heads_unique _ _ _ _ _ _ _ _ Hi Hi' Hk Hk' Hc Hc' E)
      as (_ & _ & E2).
    rewrite <- Ec, <- Ec' in E2.
    apply spaces_before_equals in E2 as [_ E2]; auto.
    destruct (group 3 m) as [|x v]; [congruence|].
    destruct He as [-> | ->].
    - destruct w2; discriminate.
    - destruct w2 as [|y w2]; simpl in E2.
      + injection E2 as <- E2. simpl in Hv. discriminate.
      + injection E2 as _ E2. destruct w2; discriminate. }
  destruct Hk as (c0 & run & segs & Ek & Hc0 & _).
  apply alpha_us_facts in Hc0 as (Hs & Hh & _).
  apply (redact_line_unmatched self line line_num c0
           ((run ++ segs) ++ w ++ "="%char :: e)); auto.
  unfold line. rewrite Ek. simpl. now apply lstrip_spaces.
Qed.

Lemma empty_value_no_redaction_witness :
  is_sensitive_key (lit "password") = true /\
  redact_line default_redactor empty_password_line 1 =
    Return (empty_password_line, default_redactor).
Proof.
  split; [vm_compute; reflexivity|].
  apply (empty_value_no_redaction default_redactor [] (lit "password")
           [" "%char] [NL] 1%Z).
  - reflexivity.
  - exists "p"%char, (lit "assword"), [].
    split; [reflexivity|]. split; [reflexivity|].
    split; [reflexivity|constructor].
  - reflexivity.
  - right. reflexivity.
Defined.

(** ** Counting *)

Lemma redact_line_step (self : TOMLRedactor) (line : list ascii)
  (line_num : Z) (out : list ascii) (self' : TOMLRedactor) :
  redact_line self line line_num = Return (out, self') ->
  (self' = self /\ (out = line \/ out = [])) \/
  self' = count_redaction self line_num.
Proof.
  intros H.
  destruct (redact_line_inv _ _ _ _ _ H)
    as [[-> ->]|[[-> ->]|(m & _ & _ & _ & ->)]]; auto.
Qed.

Lemma size_add_line (lines : gset Z) (n : Z) :
  ((n ∈ lines) /\ lines ∪ {[ n ]} = lines) \/
  ((n ∉ lines) /\ size (lines ∪ {[ n ]}) = S (size lines)).
Proof.
  destruct (decide (n ∈ lines)) as [Hin|Hin].
  - left. split; [exact Hin|]. apply leibniz_equiv. set_solver.
  - right. split; [exact Hin|].
    rewrite size_union by set_solver. rewrite size_singleton. lia.
Qed.

Lemma report_of_nonempty (self : TOMLRedactor) :
  redacted_lines self <> ∅ -> get_report self <> lit "No sensitive data found.".
Proof.
  intros H. unfold get_report. rewrite bool_decide_eq_false_2 by exact H.
  discriminate.
Qed.

(** X4. Whatever lines and line numbers [redact_line] is called with on
    a new object, the configuration stays as [__init__] set it, the set
    of recorded line numbers never has more elements than the count, and
    it is empty exactly when the count is zero: [get_report] answers
    [No sensitive data found.] exactly when nothing was redacted. *)
Theorem report_agrees_with_count (text : list ascii)
  (values commented remove : bool) (s : TOMLRedactor) :
  reachable (init text values commented remove) s ->
  same_config (init text values commented remove) s /\
  (Z.of_nat (size (redacted_lines s)) <= redacted_count s)%Z /\
  (redacted_lines s = ∅ <-> redacted_count s = 0%Z) /\
  (get_report s = lit "No sensitive data found." <->
   redacted_count s = 0%Z).
Proof.
  intros H.
  assert (Inv : same_config (init text values commented remove) s /\
                (Z.of_nat (size (redacted_lines s)) <= redacted_count s)%Z /\
                (redacted_lines s = ∅ <-> redacted_count s = 0%Z)).
  { induction H as [|s line n out s' _ IH Hr].
    - split; [repeat split|]. split; [reflexivity|]. split; reflexivity.
    - destruct IH as (Hc & Hsz & Hiff).
      destruct (redact_line_step _ _ _ _ _ Hr) as [[-> _]| ->]; [auto|].
      split; [exact Hc|]. cbn [count_redaction redacted_lines redacted_count].
      split.
      + destruct (size_add_line (redacted_lines s) n) as [[_ ->]|[_ ->]]; lia.
      + split.
        * intros He. exfalso.
          assert (Hn : n ∈ redacted_lines s ∪ {[ n ]}) by set_solver.
          rewrite He in Hn. set_solver.
        * intros He. exfalso.
          assert (0 <= Z.of_nat (size (redacted_lines s)))%Z by lia. lia. }
  destruct Inv as (Hc & Hsz & Hiff).
  split; [exact Hc|]. split; [exact Hsz|]. split; [exact Hiff|].
  split.
  - intros Hr. apply Hiff.
    destruct (decide (redacted_lines s = ∅)) as [He|He]; [exact He|].
    now apply report_of_nonempty in He.
  - intros H0. apply Hiff in H0. unfold get_report.
    now rewrite bool_decide_eq_true_2.
Qed.

Lemma report_agrees_with_count_witness :
  get_report (count_redaction default_redactor 1) <>
    lit "No sensitive data found." /\
  get_report default_redactor = lit "No sensitive data found.".
Proof.
  assert (H1 : reachable default_redactor (count_redaction default_redactor 1)).
  { apply (reach_call default_redactor default_redactor password_line 1%Z
             redacted_password_line); [constructor|vm_compute; reflexivity]. }
  split.
  - intros H.
    apply (report_agrees_with_count _ _ _ _ _ H1) in H. discriminate.
  - apply (report_agrees_with_count (lit "***REDACTED***") true true false
             default_redactor (reach_start _)). reflexivity.
Defined.

(** ** The loop over the lines of a file *)

Lemma redact_lines_cons (self : TOMLRedactor) (line : list ascii)
  (rest : list (list ascii)) (n : Z) (outs : list (list ascii))
  (s' : TOMLRedactor) :
  redact_lines self (line :: rest) n = Return (outs, s') ->
  exists out s1 outs',
    redact_line self line n = Return (out, s1) /\
    redact_lines s1 rest (n + 1)%Z = Return (outs', s') /\
    outs = out :: outs'.
Proof.
  cbn [redact_lines].
  destruct (redact_line self line n) as [[out s1]|e]; cbn [bind];
    [|discriminate].
  cbn [fst snd].
  destruct (redact_lines s1 rest (n + 1)%Z) as [[outs' s2]|e] eqn:H2;
    cbn [bind]; [|discriminate].
  cbn [fst snd]. intros [= <- <-]. exists out, s1, outs'. auto.
Qed.

Lemma redact_line_returns (self : TOMLRedactor) (line : list ascii)
  (n : Z) :
  exists out s', redact_line self line n = Return (out, s').
Proof.
  destruct (re_match ASSIGNMENT_PATTERN line) as [m|] eqn:Hm.
  - rewrite (redact_line_assignment self line n m Hm).
    destruct (is_sensitive_key (group 2 m)); cbn [bind]; [eauto|].
    destruct (is_sensitive_value_returns self (group 3 m)) as [[] ->];
      cbn [bind]; eauto.
  - unfold redact_line. rewrite Hm.
    destruct (PyFloat.is_nil _); [eauto|].
    destruct (PyStr.startswith _ _); [|eauto].
    destruct (remove_comments self); [eauto|].
    destruct (preserve_commented self); eauto.
Qed.

Lemma redact_lines_returns (lines : list (list ascii)) :
  forall (self : TOMLRedactor) (n : Z),
    exists outs s', redact_lines self lines n = Return (outs, s').
Proof.
  induction lines as [|line rest IH]; intros self n; cbn [redact_lines].
  - eauto.
  - destruct (redact_line_returns self line n) as (out & s1 & ->).
    cbn [bind fst snd].
    destruct (IH s1 (n + 1)%Z) as (outs & s' & ->). cbn [bind]. eauto.
Qed.

Lemma count_redaction_config (self : TOMLRedactor) (n : Z) :
  same_config self (count_redaction self n).
Proof. repeat split. Qed.

Lemma same_config_trans (a b c : TOMLRedactor) :
  same_config a b -> same_config b c -> same_config a c.
Proof.
  intros (H1 & H2 & H3 & H4) (H1' & H2' & H3' & H4').
  repeat split; congruence.
Qed.

Lemma same_config_refl (a : TOMLRedactor) : same_config a a.
Proof. repeat split. Qed.

(** What the loop keeps, from any object and any first line number. *)
Lemma redact_lines_accounting (lines : list (list ascii)) :
  forall (self : TOMLRedactor) (n : Z) (outs : list (list ascii))
         (s' : TOMLRedactor),
    redact_lines self lines n = Return (outs, s') ->
    length outs = length lines /\
    same_config self s' /\
    (redacted_count self <= redacted_count s')%Z /\
    redacted_lines self ⊆ redacted_lines s' /\
    (forall m, m ∈ redacted_lines s' ->
               m ∈ redacted_lines self \/
               (n <= m < n + Z.of_nat (length lines))%Z) /\
    ((forall m, m ∈ redacted_lines self -> (m < n)%Z) ->
     (redacted_count s' - redacted_count self =
      Z.of_nat (size (redacted_lines s')) -
      Z.of_nat (size (redacted_lines self)))%Z).
Proof.
  induction lines as [|line rest IH]; intros self n outs s' H.
  - cbn [redact_lines] in H. injection H as <- <-.
    split; [reflexivity|]. split; [apply same_config_refl|].
    split; [lia|]. split; [set_solver|]. split; [auto|]. intros _. lia.
  - apply redact_lines_cons in H as (out & s1 & outs' & H1 & H2 & ->).
    apply IH in H2 as (Hlen & Hc & Hle & Hsub & Hmem & Hsize).
    cbn [length]. rewrite Hlen. split; [reflexivity|].
    destruct (redact_line_step _ _ _ _ _ H1) as [[-> _]| ->].
    + split; [exact Hc|]. split; [exact Hle|]. split; [exact Hsub|].
      split.
      * intros m Hm. destruct (Hmem m Hm) as [?|?]; [auto|right; lia].
      * intros Hfresh. apply Hsize. intros m Hm. specialize (Hfresh m Hm). lia.
    + cbn [count_redaction redacted_count redacted_lines] in *.
      split; [exact (same_config_trans _ _ _
                       (count_redaction_config self n) Hc)|].
      split; [lia|]. split; [set_solver|]. split.
      * intros m Hm. destruct (Hmem m Hm) as [Hin|?]; [|right; lia].
        apply elem_of_union in Hin as [Hin|Hin]; [auto|].
        apply elem_of_singleton in Hin as ->. right. lia.
      * intros Hfresh.
        assert (Hn : n ∉ redacted_lines self)
          by (intros Hin; specialize (Hfresh n Hin); lia).
        assert (Hs : (redacted_count s' - (redacted_count self + 1) =
                      Z.of_nat (size (redacted_lines s')) -
                      Z.of_nat (size (redacted_lines self ∪ {[ n ]})))%Z).
        { apply Hsize. intros m Hm. apply elem_of_union in Hm as [Hm|Hm].
          - specialize (Hfresh m Hm). lia.
          - apply elem_of_singleton in Hm as ->. lia. }
        rewrite size_union, size_singleton in Hs by set_solver. lia.
Qed.

(** A line whose number is not recorded at the end was not redacted. *)
Lemma redact_lines_unlisted (lines : list (list ascii)) :
  forall (self : TOMLRedactor) (n : Z) (outs : list (list ascii))
         (s' : TOMLRedactor) (i : nat) (line out : list ascii),
    redact_lines self lines n = Return (outs, s') ->
    lines !! i = Some line -> outs !! i = Some out ->
    (n + Z.of_nat i)%Z ∉ redacted_lines s' ->
    out = line \/ out = [].
Proof.
  induction lines as [|l rest IH]; intros self n outs s' i line out H Hl Ho Hn;
    [discriminate|].
  apply redact_lines_cons in H as (o & s1 & outs' & H1 & H2 & ->).
  destruct i as [|i]; simpl in Hl, Ho.
  - injection Hl as ->. injection Ho as ->.
    destruct (redact_line_step _ _ _ _ _ H1) as [[_ ?]| ->]; [assumption|].
    exfalso. apply Hn. rewrite Z.add_0_r.
    apply (redact_lines_accounting _ _ _ _ _ H2).
    cbn [count_redaction redacted_lines]. set_solver.
  - apply (IH s1 (n + 1)%Z outs' s' i line out H2 Hl Ho).
    replace (n + 1 + Z.of_nat i)%Z with (n + Z.of_nat (S i))%Z by lia.
    exact Hn.
Qed.

(** X5. The loop of [redact_file] on a new object returns as many lines
    as it was given, counts exactly the line numbers it records (no
    line is counted twice), and records only numbers of lines of the
    file; a line whose number is not recorded is returned unchanged, or
    empty when it is a removed comment.  So the report lists every line
    that was rewritten. *)
Theorem file_accounting (text : list ascii)
  (values commented remove : bool) (lines outs : list (list ascii))
  (s' : TOMLRedactor) :
  redact_lines (init text values commented remove) lines 1 =
    Return (outs, s') ->
  length outs = length lines /\
  redacted_count s' = Z.of_nat (size (redacted_lines s')) /\
  (forall m, m ∈ redacted_lines s' ->
             (1 <= m <= Z.of_nat (length lines))%Z) /\
  (forall (i : nat) (line out : list ascii),
     lines !! i = Some line -> outs !! i = Some out ->
     (1 + Z.of_nat i)%Z ∉ redacted_lines s' ->
     out = line \/ out = []).
Proof.
  intros H.
  destruct (redact_lines_accounting _ _ _ _ _ H)
    as (Hlen & _ & _ & _ & Hmem & Hsize).
  split; [exact Hlen|]. split; [|split].
  - cbn [init redacted_count redacted_lines] in Hsize.
    rewrite size_empty in Hsize.
    assert (Hs := Hsize ltac:(intros m Hm; set_solver)). lia.
  - intros m Hm. destruct (Hmem m Hm) as [Hin|?]; [|lia].
    cbn [init redacted_lines] in Hin. set_solver.
  - intros i line out. apply (redact_lines_unlisted _ _ _ _ _ _ _ _ H).
Qed.

Lemma file_accounting_witness :
  exists s',
    redact_lines default_redactor three_line_file 1 =
      Return ([ lit "[database]" ++ [NL]; redacted_password_line;
                lit "port = 5432" ++ [NL] ], s') /\
    redacted_count s' = Z.of_nat (size (redacted_lines s')) /\
    redacted_lines s' = {[ 2%Z ]}.
Proof.
  destruct (redact_lines default_redactor three_line_file 1)
    as [[outs s']|e] eqn:H; [|vm_compute in H; discriminate].
  destruct (file_accounting _ _ _ _ _ _ _ H) as (_ & Hc & _).
  vm_compute in H. injection H as <- <-.
  eexists. split; [reflexivity|]. split; [exact Hc|].
  vm_compute. reflexivity.
Defined.

Lemma join_readlines (text : list ascii) :
  PyBuiltin.join [] (PyBuiltin.readlines text) = text.
Proof.
  induction text as [|c text IH]; [reflexivity|].
  cbn [PyBuiltin.readlines].
  destruct (chr_eqb c NL).
  - destruct (PyBuiltin.readlines text) as [|l ls] eqn:E.
    + simpl in *. now rewrite <- IH.
    + change (PyBuiltin.join [] ([c] :: l :: ls))
        with ([c] ++ [] ++ PyBuiltin.join [] (l :: ls)).
      now rewrite IH.
  - destruct (PyBuiltin.readlines text) as [|l ls] eqn:E.
    + simpl in *. now rewrite <- IH.
    + destruct ls as [|l2 ls].
      * simpl in *. now rewrite IH.
      * change (PyBuiltin.join [] ((c :: l) :: l2 :: ls))
          with (c :: l ++ [] ++ PyBuiltin.join [] (l2 :: ls)).
        change (PyBuiltin.join [] (l :: l2 :: ls))
          with (l ++ [] ++ PyBuiltin.join [] (l2 :: ls)) in IH.
        now rewrite IH.
Qed.

(** A run of the loop that counts nothing and keeps comments returns the
    lines it was given. *)
Lemma redact_lines_nothing_counted (lines : list (list ascii)) :
  forall (self : TOMLRedactor) (n : Z) (outs : list (list ascii))
         (s' : TOMLRedactor),
    redact_lines self lines n = Return (outs, s') ->
    remove_comments self = false ->
    redacted_count s' = redacted_count self ->
    outs = lines /\ s' = self.
Proof.
  induction lines as [|line rest IH]; intros self n outs s' H Hr Hc.
  - cbn [redact_lines] in H. injection H as <- <-. auto.
  - apply redact_lines_cons in H as (out & s1 & outs' & H1 & H2 & ->).
    destruct (redact_lines_accounting _ _ _ _ _ H2) as (_ & _ & Hle & _).
    pose proof H1 as H1'.
    apply redact_line_inv in H1'
      as [[-> ->]|[[-> ->]|(m & _ & _ & _ & ->)]].
    + destruct (IH self (n + 1)%Z outs' s' H2 Hr Hc) as [-> ->]. auto.
    + (* a removed comment: excluded, comments are kept *)
      destruct (IH self (n + 1)%Z outs' s' H2 Hr Hc) as [-> ->].
      split; [|reflexivity]. f_equal.
      unfold redact_line in H1. rewrite Hr in H1.
      destruct (PyFloat.is_nil _); [now injection H1|].
      destruct (PyStr.startswith _ _).
      * destruct (preserve_commented self); now injection H1.
      * destruct (re_match ASSIGNMENT_PATTERN line) as [m|];
          [|now injection H1].
        destruct (if is_sensitive_key (group 2 m) then _ else _)
          as [[]|]; cbn [bind] in H1; [|now injection H1|discriminate].
        injection H1 as _ H1.
        assert (Hx := f_equal redacted_count H1).
        cbn [count_redaction redacted_count] in Hx. lia.
    + cbn [count_redaction redacted_count] in Hle. lia.
Qed.

(** X6. When [redact_file] keeps comments and its run counts no
    redaction, the text it writes is the text it read, character for
    character, and the object is as it was. *)
Theorem nothing_redacted_same_file (exn_text : exn -> list ascii)
  (self : TOMLRedactor) (text path : list ascii)
  (write : list ascii -> io unit) (c : console) :
  remove_comments self = false ->
  run_success (redact_file exn_text self
                 (IoOk (PyBuiltin.readlines text)) (Some path) write c)
    = true ->
  redacted_count
    (run_self (redact_file exn_text self
                 (IoOk (PyBuiltin.readlines text)) (Some path) write c))
    = redacted_count self ->
  run_written (redact_file exn_text self
                 (IoOk (PyBuiltin.readlines text)) (Some path) write c)
    = Some text /\
  run_self (redact_file exn_text self
              (IoOk (PyBuiltin.readlines text)) (Some path) write c)
    = self.
Proof.
  intros Hr. unfold redact_file.
  destruct (redact_lines_returns (PyBuiltin.readlines text) self 1)
    as (outs & s' & H). rewrite H.
  destruct (write (PyBuiltin.join [] outs)) as [u|msg];
    cbn [file_error run_success run_self run_written]; [|discriminate].
  intros _ Hc.
  destruct (redact_lines_nothing_counted _ _ _ _ _ H Hr Hc) as [-> ->].
  now rewrite join_readlines.
Qed.

Lemma nothing_redacted_same_file_witness :
  run_written (redact_file (fun _ => []) default_redactor
                 (IoOk (PyBuiltin.readlines plain_settings_text))
                 (Some (lit "out.toml")) (fun _ => IoOk tt)
                 (Console [] []))
    = Some plain_settings_text /\
  run_self (redact_file (fun _ => []) default_redactor
              (IoOk (PyBuiltin.readlines plain_settings_text))
              (Some (lit "out.toml")) (fun _ => IoOk tt) (Console [] []))
    = default_redactor.
Proof.
  apply (nothing_redacted_same_file (fun _ => []) default_redactor
           plain_settings_text (lit "out.toml") (fun _ => IoOk tt)
           (Console [] [])).
  - reflexivity.
  - vm_compute. reflexivity.
  - vm_compute. reflexivity.
Defined.


(** ** The key classifier in terms of text *)

Lemma re_sub_quotes_from (s : list ascii) : forall prev,
  sub_loop QUOTE_PATTERN [] prev s 0 =
  List.filter (fun c => negb (set_quote c)) s.
Proof.
  induction s as [|c s IH]; intros prev; [reflexivity|].
  cbn [sub_loop List.filter]. unfold match_at, QUOTE_PATTERN in *.
  cbn [rmatch m_rest]. destruct (set_quote c); cbn [negb].
  - cbn [step m_rest]. replace (length (c :: s) - length s) with 1
      by (cbn [length]; lia).
    cbn [app]. apply IH.
  - f_equal. apply IH.
Qed.

Lemma key_clean_filter (k : list ascii) :
  key_clean k = map to_lower (List.filter (fun c => negb (set_quote c)) k).
Proof. unfold key_clean, re_sub, PyStr.lower. now rewrite re_sub_quotes_from. Qed.

Lemma to_lower_facts (c : ascii) :
  to_lower (to_lower c) = to_lower c /\
  set_quote (to_lower c) = set_quote c.
Proof. destruct c as [[] [] [] [] [] [] [] []]; vm_compute; auto. Qed.

Lemma key_clean_lower (k : list ascii) :
  key_clean (PyStr.lower k) = key_clean k.
Proof.
  rewrite !key_clean_filter. unfold PyStr.lower.
  induction k as [|c k IH]; [reflexivity|].
  cbn [map List.filter]. rewrite (proj2 (to_lower_facts c)).
  destruct (set_quote c); cbn [negb map]; [exact IH|].
  now rewrite IH, (proj1 (to_lower_facts c)).
Qed.

Lemma key_clean_quote (a b : list ascii) (q : ascii) :
  q = DQ \/ q = SQ -> key_clean (a ++ q :: b) = key_clean (a ++ b).
Proof.
  intros Hq. rewrite !key_clean_filter, !List.filter_app. cbn [List.filter].
  now destruct Hq as [-> | ->].
Qed.

Lemma is_sensitive_key_clean (k k' : list ascii) :
  key_clean k = key_clean k' -> is_sensitive_key k = is_sensitive_key k'.
Proof. intros H. unfold is_sensitive_key. now rewrite H. Qed.

(** X8. The key classifier ignores the letter case of a key and every
    quote character in it, single or double, wherever it stands: a key
    is classified as its lower-case form is, and as the key without the
    quote is. *)
Theorem key_case_and_quotes_ignored :
  (forall k : list ascii,
     is_sensitive_key (PyStr.lower k) = is_sensitive_key k) /\
  (forall (a b : list ascii) (q : ascii),
     q = DQ \/ q = SQ ->
     is_sensitive_key (a ++ q :: b) = is_sensitive_key (a ++ b)).
Proof.
  split.
  - intros k. apply is_sensitive_key_clean, key_clean_lower.
  - intros a b q Hq. now apply is_sensitive_key_clean, key_clean_quote.
Qed.

Lemma key_case_and_quotes_ignored_witness :
  is_sensitive_key (lit "properties." ++ DQ :: lit "moesifKey" ++ [DQ]) =
    is_sensitive_key (lit "properties." ++ lit "moesifKey" ++ [DQ]) /\
  is_sensitive_key (lit "properties." ++ DQ :: lit "moesifKey" ++ [DQ]) = true.
Proof.
  split; [|vm_compute; reflexivity].
  apply (proj2 key_case_and_quotes_ignored (lit "properties.")
           (lit "moesifKey" ++ [DQ]) DQ).
  left. reflexivity.
Defined.

Lemma standalone_token_search (s : list ascii) :
  truthy (re_search (Seq [WordB; Word "token"; WordB]) s) = true <->
  token_word s.
Proof.
  rewrite re_search_iff. cbn [Seq]. unfold Word, token_word. split.
  - intros (pre & u & f & g' & -> & u1 & u2 & g1 & -> & (-> & Hb1 & ->) &
            u3 & u4 & g2 & -> & H3 & (-> & Hb2 & _)).
    apply matches_word in H3 as [-> _]; [|discriminate].
    exists pre, f. split; [now rewrite app_nil_r|].
    cbn in Hb1, Hb2. split.
    + now destruct (is_word_opt (after None pre)).
    + now destruct (is_word_opt (hd_error f)).
  - intros (pre & post & -> & Hp & Hq).
    exists pre, (lit "token"), post, ∅. split; [reflexivity|].
    exists [], (lit "token"), ∅. split; [reflexivity|].
    split; [cbn; rewrite Hp; auto|].
    exists (lit "token"), [], ∅. split; [reflexivity|].
    split; [now apply matches_word|].
    cbn. rewrite Hq. auto.
Qed.

(** X9. What the three token patterns find in a cleaned key: the word
    [token] by itself, or [_token] at the end (before at most one
    newline), or [token_] at the start.  In [max_token_count] the word
    does not stand by itself, the underscore being a word character. *)
Theorem token_patterns_meaning (s : list ascii) :
  existsb (fun pattern => truthy (re_search pattern s)) TOKEN_PATTERNS
    = true <->
  token_word s \/
  PyStr.endswith s (lit "_token") = true \/
  PyStr.endswith s (lit "_token" ++ [NL]) = true \/
  PyStr.startswith s (lit "token_") = true.
Proof.
  unfold TOKEN_PATTERNS. cbn [existsb].
  change (Seq [Word "_token"; Eol]) with (ends "_token").
  change (Seq [Bol; Word "token_"]) with (starts "token_").
  rewrite search_ends, search_starts by discriminate.
  rewrite orb_false_r, !orb_true_iff, standalone_token_search. tauto.
Qed.

Lemma contains_iff (sub s : list ascii) :
  PyStr.contains sub s = true <-> exists pre post, s = pre ++ sub ++ post.
Proof.
  induction s as [|c s IH]; cbn [PyStr.contains].
  - rewrite orb_false_r, startswith_iff. split.
    + intros [f H]. exists [], f. exact H.
    + intros (pre & post & H). destruct pre; [|discriminate]. eauto.
  - rewrite orb_true_iff, startswith_iff, IH. split.
    + intros [[f H]|(pre & post & ->)].
      * exists [], f. exact H.
      * exists (c :: pre), post. reflexivity.
    + intros (pre & post & H). destruct pre as [|x pre].
      * left. eauto.
      * right. injection H as _ ->. eauto.
Qed.

Lemma contains_trans (a b s : list ascii) :
  PyStr.contains a b = true -> PyStr.contains b s = true ->
  PyStr.contains a s = true.
Proof.
  rewrite !contains_iff. intros (p1 & q1 & ->) (p2 & q2 & ->).
  exists (p2 ++ p1), (q1 ++ q2). now rewrite <- !app_assoc.
Qed.

(** X11. Six of the sixteen terms of [SENSITIVE_PATTERNS] never decide
    anything, each containing a shorter term of the set: a text contains
    one of the sixteen exactly when it contains one of the other ten. *)
Theorem effective_sensitive_terms (s : list ascii) :
  existsb (fun term => PyStr.contains term s) SENSITIVE_PATTERNS =
  existsb (fun term => PyStr.contains term s) EFFECTIVE_TERMS.
Proof.
  unfold SENSITIVE_PATTERNS, EFFECTIVE_TERMS. cbn [existsb].
  pose proof (contains_trans (lit "key") (lit "apikey") s eq_refl) as H1.
  pose proof (contains_trans (lit "key") (lit "api_key") s eq_refl) as H2.
  pose proof (contains_trans (lit "credential") (lit "credentials") s
                eq_refl) as H3.
  pose proof (contains_trans (lit "key") (lit "key_password") s eq_refl)
    as H4.
  pose proof (contains_trans (lit "key") (lit "moesifkey") s eq_refl) as H5.
  pose proof (contains_trans (lit "key") (lit "embedding_endpoint_key") s
                eq_refl) as H6.
  repeat match goal with
         | |- context [PyStr.contains ?t s] =>
             let b := fresh "b" in
             generalize dependent (PyStr.contains t s); intros b
         end.
  intros. apply eq_true_iff_eq. rewrite !orb_true_iff. intuition congruence.
Qed.

(** ** The value classifier in terms of text *)

Lemma rep_cls_iff (lo : nat) (cls : ascii -> bool) p u f g g' :
  Matches (Rep lo None (Cls cls)) p u f g g' <->
  forallb cls u = true /\ lo <= length u /\ g' = g.
Proof.
  split.
  - intros (n & Hlo & _ & H). apply iter_cls_inv in H as (H1 & H2 & H3).
    subst n. auto.
  - intros (H1 & H2 & ->). exists (length u).
    split; [exact H2|]. split; [reflexivity|]. now apply iter_cls_intro.
Qed.

Lemma padding_iff p u f g g' :
  Matches (Rep 0 (Some 2) (Lit "=")) p u f g g' <->
  (u = [] \/ u = lit "=" \/ u = lit "==") /\ g' = g.
Proof.
  split.
  - intros (n & _ & Hhi & H). destruct n as [|[|[|n]]]; cbn in H.
    + destruct H as [-> ->]. auto.
    + destruct H as (u1 & u2 & g1 & -> & _ & [-> ->] & [-> ->]). auto.
    + destruct H as (u1 & u2 & g1 & -> & _ & [-> ->] &
                     u3 & u4 & g2 & -> & _ & [-> ->] & [-> ->]). auto.
    + discriminate.
  - intros [[-> |[-> | ->]] ->].
    + exists 0. cbn. auto.
    + exists 1. split; [lia|]. split; [reflexivity|].
      exists (lit "="), [], g.
      split; [reflexivity|]. split; [discriminate|].
      split; split; reflexivity.
    + exists 2. split; [lia|]. split; [reflexivity|].
      exists (lit "="), (lit "="), g.
      split; [reflexivity|]. split; [discriminate|].
      split; [split; reflexivity|].
      exists (lit "="), [], g.
      split; [reflexivity|]. split; [discriminate|].
      split; split; reflexivity.
Qed.

Lemma jwt_pattern_meaning (s : list ascii) :
  truthy (re_search
            (Seq [Word "eyJ"; Star (Cls set_b64url); Lit ".";
                  Star (Cls set_b64url); Lit "."; Star (Cls set_b64url)]) s)
    = true <-> jwt_shape s.
Proof.
  rewrite re_search_iff. cbn [Seq]. unfold Word, Star, jwt_shape. split.
  - intros (pre & u & f & g' & -> & u1 & r1 & g1 & -> & H1 &
            a & r2 & g2 & -> & Ha & d1 & r3 & g3 & -> & [-> _] &
            b & r4 & g4 & -> & Hb & d2 & c & g5 & -> & [-> _] & _).
    apply matches_word in H1 as [-> _]; [|discriminate].
    apply rep_cls_iff in Ha as (Ha & _). apply rep_cls_iff in Hb as (Hb & _).
    exists pre, a, b, (c ++ f). split; [|auto].
    rewrite <- ?app_assoc. cbn [app]. rewrite <- ?app_assoc. reflexivity.
  - intros (pre & a & b & post & -> & Ha & Hb).
    exists pre, (lit "eyJ" ++ a ++ "."%char :: b ++ ["."%char]), post, ∅.
    split; [rewrite <- ?app_assoc; cbn [app]; rewrite <- ?app_assoc;
            reflexivity|].
    exists (lit "eyJ"), (a ++ "."%char :: b ++ ["."%char]), ∅.
    split; [reflexivity|]. split; [now apply matches_word|].
    exists a, ("."%char :: b ++ ["."%char]), ∅.
    split; [reflexivity|]. split; [apply rep_cls_iff; auto with arith|].
    exists ["."%char], (b ++ ["."%char]), ∅.
    split; [reflexivity|]. split; [split; reflexivity|].
    exists b, ["."%char], ∅.
    split; [reflexivity|]. split; [apply rep_cls_iff; auto with arith|].
    exists ["."%char], [], ∅.
    split; [reflexivity|]. split; [split; reflexivity|].
    apply rep_cls_iff. auto.
Qed.

Lemma base64_pattern_meaning (s : list ascii) :
  truthy (re_search
            (Seq [Bol; Rep 40 None (Cls set_b64);
                  Rep 0 (Some 2) (Lit "="); Eol]) s) = true <->
  base64_shape s.
Proof.
  rewrite re_search_iff. cbn [Seq]. unfold base64_shape. split.
  - intros (pre & u & f & g' & -> & u1 & r1 & g1 & -> & (-> & Hp & ->) &
            body & r2 & g2 & -> & Hb & pad & r3 & g3 & -> & Hpad &
            (-> & He & _)).
    apply after_None in Hp as ->.
    apply rep_cls_iff in Hb as (Hb & Hlen & _).
    apply padding_iff in Hpad as [Hpad _].
    exists body, pad, f. rewrite app_nil_r. cbn [app].
    rewrite <- app_assoc. auto.
  - intros (body & pad & e & -> & Hb & Hlen & Hpad & He).
    exists [], (body ++ pad), e, ∅.
    split; [cbn [app]; now rewrite <- app_assoc|].
    exists [], (body ++ pad), ∅. split; [reflexivity|].
    split; [cbn; auto|].
    exists body, pad, ∅. split; [reflexivity|].
    split; [apply rep_cls_iff; auto|].
    exists pad, [], ∅. split; [now rewrite app_nil_r|].
    split; [apply padding_iff; auto|]. cbn. auto.
Qed.

Lemma sk_pattern_meaning (s : list ascii) :
  truthy (re_search (Seq [Bol; Word "sk-"; Rep 20 None (Cls set_b64url)]) s)
    = true <-> sk_shape s.
Proof.
  rewrite re_search_iff. cbn [Seq]. unfold Word, sk_shape. split.
  - intros (pre & u & f & g' & -> & u1 & r1 & g1 & -> & (-> & Hp & ->) &
            w & body & g2 & -> & Hw & Hb).
    apply after_None in Hp as ->.
    apply matches_word in Hw as [-> _]; [|discriminate].
    apply rep_cls_iff in Hb as (Hb & Hlen & _).
    exists body, f. cbn [app]. rewrite <- app_assoc. auto.
  - intros (body & post & -> & Hb & Hlen).
    exists [], (lit "sk-" ++ body), post, ∅.
    split; [cbn [app]; now rewrite <- app_assoc|].
    exists [], (lit "sk-" ++ body), ∅. split; [reflexivity|].
    split; [cbn; auto|].
    exists (lit "sk-"), body, ∅. split; [reflexivity|].
    split; [now apply matches_word|]. apply rep_cls_iff. auto.
Qed.

Lemma alnum_pattern_meaning (s : list ascii) :
  truthy (re_search (Seq [Bol; Rep 32 None (Cls set_alnum); Eol]) s) = true
  <-> alnum_shape s.
Proof.
  rewrite re_search_iff. cbn [Seq]. unfold alnum_shape. split.
  - intros (pre & u & f & g' & -> & u1 & r1 & g1 & -> & (-> & Hp & ->) &
            body & r2 & g2 & -> & Hb & (-> & He & _)).
    apply after_None in Hp as ->.
    apply rep_cls_iff in Hb as (Hb & Hlen & _).
    exists body, f. rewrite app_nil_r. auto.
  - intros (body & e & -> & Hb & Hlen & He).
    exists [], body, e, ∅. split; [reflexivity|].
    exists [], body, ∅. split; [reflexivity|]. split; [cbn; auto|].
    exists body, [], ∅. split; [now rewrite app_nil_r|].
    split; [apply rep_cls_iff; auto|]. cbn. auto.
Qed.

Lemma value_patterns_meaning (s : list ascii) :
  existsb (fun pattern => truthy (re_search pattern s)) VALUE_PATTERNS
    = true <->
  jwt_shape s \/ base64_shape s \/ sk_shape s \/ alnum_shape s.
Proof.
  unfold VALUE_PATTERNS. cbn [existsb].
  rewrite orb_false_r, !orb_true_iff, jwt_pattern_meaning,
    base64_pattern_meaning, sk_pattern_meaning, alnum_pattern_meaning.
  tauto.
Qed.

Lemma str_eqb_eq (a b : list ascii) : PyStr.str_eqb a b = true <-> a = b.
Proof.
  revert b. induction a as [|x a IH]; intros [|y b]; cbn;
    try (split; [discriminate|congruence]); [tauto|].
  rewrite andb_true_iff, chr_eqb_eq, IH. split.
  - intros [-> ->]. reflexivity.
  - intros [= -> ->]. auto.
Qed.

(** X12. The value classifier, in terms of text.  A value is sensitive
    exactly when value checks are enabled, its cleaned form is none of
    the exempt kinds (a reference starting with a dollar sign, [true] or
    [false] in any letter case, a text that [float] accepts), and the
    cleaned form has one of four shapes: [eyJ], url-safe characters, a
    dot, url-safe characters and a dot anywhere in it; 40 or more
    base64 characters and at most two equals signs, from start to end;
    [sk-] and 20 or more url-safe characters at its start; 32 or more
    letters and digits from start to end. *)
Theorem sensitive_value_meaning (self : TOMLRedactor) (value : list ascii) :
  is_sensitive_value self value = Return true <->
  check_values self = true /\
  PyStr.startswith (clean_value value) (lit "$") = false /\
  PyStr.lower (clean_value value) <> lit "true" /\
  PyStr.lower (clean_value value) <> lit "false" /\
  PyFloat.float (clean_value value) = Raise ValueError /\
  (jwt_shape (clean_value value) \/ base64_shape (clean_value value) \/
   sk_shape (clean_value value) \/ alnum_shape (clean_value value)).
Proof.
  unfold is_sensitive_value.
  destruct (check_values self); cbn [negb];
    [|split; [discriminate|intros (H & _); discriminate]].
  set (c := clean_value value).
  destruct (PyStr.startswith c (lit "$")) eqn:Hd; cbn [orb].
  { split; [discriminate|intros (_ & H & _); discriminate]. }
  assert (Hb : PyStr.startswith c (lit "${") = false).
  { destruct (PyStr.startswith c (lit "${")) eqn:Hb; [|reflexivity].
    apply startswith_iff in Hb as [f Hb].
    assert (Hd' : PyStr.startswith c (lit "$") = true)
      by (apply startswith_iff; exists ("{"%char :: f); exact Hb).
    congruence. }
  rewrite Hb.
  destruct (PyStr.in_tuple (PyStr.lower c) [lit "true"; lit "false"]) eqn:Ht.
  { split; [discriminate|]. intros (_ & _ & H1 & H2 & _). exfalso.
    unfold PyStr.in_tuple in Ht. cbn [existsb] in Ht.
    rewrite orb_false_r in Ht. apply orb_true_iff in Ht as [Ht|Ht];
      apply str_eqb_eq in Ht; auto. }
  assert (Hne : PyStr.lower c <> lit "true" /\ PyStr.lower c <> lit "false").
  { unfold PyStr.in_tuple in Ht. cbn [existsb] in Ht.
    rewrite orb_false_r in Ht. apply orb_false_iff in Ht as [H1 H2].
    split; intros E; rewrite E in *; discriminate. }
  destruct (float_outcome c) as [Hf|Hf]; rewrite Hf;
    cbn [bind try_except_ValueError].
  { split; [discriminate|intros (_ & _ & _ & _ & H & _); discriminate]. }
  destruct (existsb _ VALUE_PATTERNS) eqn:Hv.
  - apply value_patterns_meaning in Hv. tauto.
  - split; [discriminate|]. intros (_ & _ & _ & _ & _ & H).
    apply value_patterns_meaning in H. congruence.
Qed.

Lemma sensitive_value_meaning_witness :
  is_sensitive_value default_redactor
    (lit "'sk-abcdefghijklmnopqrstuvwxyz'") = Return true.
Proof.
  apply (sensitive_value_meaning default_redactor
           (lit "'sk-abcdefghijklmnopqrstuvwxyz'")).
  split; [reflexivity|]. split; [vm_compute; reflexivity|].
  split; [vm_compute; discriminate|]. split; [vm_compute; discriminate|].
  split; [vm_compute; reflexivity|].
  right; right; left.
  exists (lit "abcdefghijklmnopqrstuvwxyz"), [].
  split; [vm_compute; reflexivity|]. split; [reflexivity|].
  cbn. lia.
Defined.

(** ** Running the tool on its own output *)


















(** ** The lines that the report lists *)

Lemma redact_lines_listed (lines : list (list ascii)) :
  forall (self : TOMLRedactor) (n : Z) (outs : list (list ascii))
         (s' : TOMLRedactor) (i : nat) (line out : list ascii),
    redact_lines self lines n = Return (outs, s') ->
    (forall m, m ∈ redacted_lines self -> (m < n)%Z) ->
    lines !! i = Some line -> outs !! i = Some out ->
    (n + Z.of_nat i)%Z ∈ redacted_lines s' ->
    exists indent key value q,
      assignment_of line indent key value /\ (q = DQ \/ q = SQ) /\
      out = redacted_line indent key q (redaction_text self).
Proof.
  induction lines as [|l rest IH];
    intros self n outs s' i line out H Hfresh Hl Ho Hn; [discriminate|].
  apply redact_lines_cons in H as (o & s1 & outs' & H1 & H2 & ->).
  destruct i as [|i]; simpl in Hl, Ho.
  - injection Hl as ->. injection Ho as ->. rewrite Z.add_0_r in Hn.
    assert (Hnot : s1 = self -> False).
    { intros ->.
      destruct (redact_lines_accounting _ _ _ _ _ H2)
        as (_ & _ & _ & _ & Hmem & _).
      destruct (Hmem n Hn) as [Hin|?]; [|lia].
      specialize (Hfresh n Hin). lia. }
    destruct (redact_line_inv _ _ _ _ _ H1)
      as [[_ ?]|[[_ ?]|(m & Hm & _ & -> & _)]]; [tauto|tauto|].
    destruct (redacted_value_cases self (group 3 m)) as (q & Hq & ->).
    exists (group 1 m), (group 2 m), (group 3 m), q.
    split; [now apply assignment_sound|]. auto.
  - assert (Hc : redaction_text s1 = redaction_text self /\
                 forall m, m ∈ redacted_lines s1 -> (m < n + 1)%Z).
    { destruct (redact_line_step _ _ _ _ _ H1) as [[-> _]| ->].
      - split; [reflexivity|]. intros m Hm. specialize (Hfresh m Hm). lia.
      - split; [reflexivity|]. cbn [count_redaction redacted_lines].
        intros m Hm. apply elem_of_union in Hm as [Hm|Hm].
        + specialize (Hfresh m Hm). lia.
        + apply elem_of_singleton in Hm as ->. lia. }
    destruct Hc as [<- Hfresh1].
    apply (IH s1 (n + 1)%Z outs' s' i line out H2 Hfresh1 Hl Ho).
    replace (n + 1 + Z.of_nat i)%Z with (n + Z.of_nat (S i))%Z by lia.
    exact Hn.
Qed.

(** X14. After the loop of [redact_file] on a new object, every line
    number the report lists is the number of an assignment line of the
    file, and the line returned in its place is the redacted form of
    that line: its indent, its key, the equals sign between two spaces,
    the placeholder in quotes, a newline. *)
Theorem listed_lines_were_redacted (text : list ascii)
  (values commented remove : bool) (lines outs : list (list ascii))
  (s' : TOMLRedactor) (i : nat) (line out : list ascii) :
  redact_lines (init text values commented remove) lines 1 =
    Return (outs, s') ->
  lines !! i = Some line -> outs !! i = Some out ->
  (1 + Z.of_nat i)%Z ∈ redacted_lines s' ->
  exists indent key value q,
    assignment_of line indent key value /\ (q = DQ \/ q = SQ) /\
    out = redacted_line indent key q text.
Proof.
  intros H Hl Ho Hn.
  apply (redact_lines_listed lines (init text values commented remove) 1%Z
           outs s' i line out H); auto.
  cbn [init redacted_lines]. intros m Hm. set_solver.
Qed.

Lemma listed_lines_were_redacted_witness :
  exists indent key value q,
    assignment_of password_line indent key value /\ (q = DQ \/ q = SQ) /\
    redacted_password_line = redacted_line indent key q (lit "***REDACTED***").
Proof.
  apply (listed_lines_were_redacted (lit "***REDACTED***") true true false
           three_line_file
           [ lit "[database]" ++ [NL]; redacted_password_line;
             lit "port = 5432" ++ [NL] ]
           (count_redaction default_redactor 2) 1 password_line
           redacted_password_line).
  - vm_compute. reflexivity.
  - reflexivity.
  - reflexivity.
  - vm_compute. set_solver.
Defined.

Lemma sorted_strictly (l : list Z) :
  StronglySorted Z.le l -> NoDup l -> StronglySorted Z.lt l.
Proof.
  induction 1 as [|x l Hs IH Hx]; intros Hnd; [constructor|].
  apply NoDup_cons in Hnd as [Hnx Hnd].
  constructor; [now apply IH|].
  apply Forall_forall. intros y Hy.
  assert (x <= y)%Z by exact (proj1 (Forall_forall _ _) Hx y Hy).
  assert (x <> y) by (intros ->; contradiction).
  lia.
Qed.

(** X15. After the loop of [redact_file] on a new object, [get_report]
    lists each recorded line number once, in ascending order, and lists
    as many numbers as the count it shows. *)
Theorem report_lists_each_line_once (text : list ascii)
  (values commented remove : bool) (lines outs : list (list ascii))
  (s' : TOMLRedactor) :
  redact_lines (init text values commented remove) lines 1 =
    Return (outs, s') ->
  Z.of_nat (length (PyBuiltin.sorted (redacted_lines s'))) =
    redacted_count s' /\
  StronglySorted Z.lt (PyBuiltin.sorted (redacted_lines s')) /\
  (forall m, m ∈ PyBuiltin.sorted (redacted_lines s') <->
             m ∈ redacted_lines s').
Proof.
  intros H. unfold PyBuiltin.sorted.
  pose proof (merge_sort_Permutation Z.le (elements (redacted_lines s')))
    as Hp.
  split; [|split].
  - rewrite Hp.
    destruct (redact_lines_accounting _ _ _ _ _ H)
      as (_ & _ & _ & _ & _ & Hsize).
    cbn [init redacted_count redacted_lines] in Hsize.
    rewrite size_empty in Hsize.
    assert (Hs := Hsize ltac:(intros m Hm; set_solver)).
    unfold size, set_size in Hs. cbn in Hs. lia.
  - apply sorted_strictly.
    + apply StronglySorted_merge_sort; apply _.
    + rewrite Hp. apply NoDup_elements.
  - intros m. rewrite Hp. apply elem_of_elements.
Qed.

Lemma report_lists_each_line_once_witness :
  PyBuiltin.sorted (redacted_lines (count_redaction default_redactor 2))
    = [2%Z] /\
  Z.of_nat (length (PyBuiltin.sorted
                      (redacted_lines (count_redaction default_redactor 2))))
    = redacted_count (count_redaction default_redactor 2).
Proof.
  split; [vm_compute; reflexivity|].
  apply (report_lists_each_line_once (lit "***REDACTED***") true true false
           three_line_file
           [ lit "[database]" ++ [NL]; redacted_password_line;
             lit "port = 5432" ++ [NL] ]
           (count_redaction default_redactor 2)).
  vm_compute. reflexivity.
Defined.
